(** * LCD_I2C_STM32: an HD44780 character LCD behind a PCF8574 I2C expander

    Shallow embedding of [LCD.c] / [LCD.h].

    - [uint8_t] and [int32_t] values are integers of [Z]; where the C code
      stores a computed [int] expression into a [uint8_t] (a compound
      assignment, or an argument that is not a compile-time constant) the
      wrap-around is written out with [u8].
    - The two file-scope variables [hi2c_lcd] and [lcd_addr] are the fields of
      [Globals]; a pointer is its address, [NULL] is address 0.
    - The HAL is external.  A call of [HAL_I2C_Master_Transmit] or [HAL_Delay]
      is recorded as an [Event]; the driver discards the status returned by
      the transmit function, so the model returns [unit] for it.
    - A driver function is a computation of the monad [M]: it reads and
      writes the globals and emits events, in program order. *)

From Stdlib Require Import ZArith List Bool Lia String Ascii.
Import ListNotations.

Local Open Scope Z_scope.

(* ------------------------------------------------------------------------- *)
(** ** Machine integers *)

Definition u8 (z : Z) : Z := z mod 256.
Definition u32 (z : Z) : Z := z mod 4294967296.

Definition is_u8 (z : Z) : Prop := 0 <= z < 256.
Definition is_i32 (z : Z) : Prop := -2147483648 <= z < 2147483648.

Definition NULL : Z := 0.

(* ------------------------------------------------------------------------- *)
(** ** LCD.h: commands, flags, expander pins, status codes *)

Definition LCD_CLEAR_DISPLAY   : Z := 0x01.
Definition LCD_RETURN_HOME     : Z := 0x02.
Definition LCD_ENTRY_MODE_SET  : Z := 0x04.
Definition LCD_DISPLAY_CONTROL : Z := 0x08.
Definition LCD_CURSOR_SHIFT    : Z := 0x10.
Definition LCD_FUNCTION_SET    : Z := 0x20.
Definition LCD_SET_CGRAM_ADDR  : Z := 0x40.
Definition LCD_SET_DDRAM_ADDR  : Z := 0x80.

Definition LCD_ENTRY_LEFT      : Z := 0x02.

Definition LCD_DISPLAY_ON      : Z := 0x04.
Definition LCD_CURSOR_ON       : Z := 0x02.
Definition LCD_BLINK_ON        : Z := 0x01.

Definition LCD_DISPLAY_MOVE    : Z := 0x08.
Definition LCD_MOVE_RIGHT      : Z := 0x04.
Definition LCD_MOVE_LEFT       : Z := 0x00.

Definition LCD_4BIT_MODE       : Z := 0x00.
Definition LCD_2LINE           : Z := 0x08.
Definition LCD_5x8DOTS         : Z := 0x00.

Definition LCD_RS              : Z := 0x01.
Definition LCD_RW              : Z := 0x02.
Definition LCD_EN              : Z := 0x04.
Definition LCD_BACKLIGHT       : Z := 0x08.

Inductive LCD_StatusTypeDef : Set :=
| LCD_OK
| LCD_ERROR
| LCD_NOT_INITIALIZED
| LCD_BUSY
| LCD_TIMEOUT.

(* ------------------------------------------------------------------------- *)
(** ** Program state and effects *)

Record Globals : Set := mkGlobals {
  hi2c_lcd : Z;   (* static I2C_HandleTypeDef* hi2c_lcd = NULL; *)
  lcd_addr : Z    (* static uint8_t lcd_addr = 0x27 << 1;        *)
}.

Definition power_on : Globals :=
  {| hi2c_lcd := NULL; lcd_addr := Z.shiftl 0x27 1 |}.

Inductive Event : Set :=
| I2C_Transmit (hi2c DevAddress : Z) (pData : list Z) (Timeout : Z)
| Delay (ms : Z).

Definition M (A : Type) : Type := Globals -> A * Globals * list Event.

Definition ret {A} (a : A) : M A := fun g => (a, g, []).

Definition bind {A B} (m : M A) (k : A -> M B) : M B :=
  fun g =>
    let '(a, g1, t1) := m g in
    let '(b, g2, t2) := k a g1 in
    (b, g2, t1 ++ t2).

Notation "x <- m ;; k" := (bind m (fun x => k))
  (at level 61, m at next level, right associativity).
Notation "m ;; k" := (bind m (fun _ => k))
  (at level 61, right associativity).

Definition globals : M Globals := fun g => (g, g, []).
Definition set_hi2c_lcd (p : Z) : M unit :=
  fun g => (tt, {| hi2c_lcd := p; lcd_addr := lcd_addr g |}, []).
Definition set_lcd_addr (a : Z) : M unit :=
  fun g => (tt, {| hi2c_lcd := hi2c_lcd g; lcd_addr := a |}, []).

Definition HAL_I2C_Master_Transmit (hi2c DevAddress : Z) (pData : list Z)
    (Timeout : Z) : M unit :=
  fun g => (tt, g, [I2C_Transmit hi2c DevAddress pData Timeout]).

Definition HAL_Delay (ms : Z) : M unit := fun g => (tt, g, [Delay ms]).

(** What a call returned, the globals it left, and what it did on the HAL. *)
Definition status_of {A} (r : A * Globals * list Event) : A := fst (fst r).
Definition globals_of {A} (r : A * Globals * list Event) : Globals := snd (fst r).
Definition events_of {A} (r : A * Globals * list Event) : list Event := snd r.

(** The bytes handed to the bus, one entry per transmitted byte, in order. *)
Fixpoint packets (t : list Event) : list Z :=
  match t with
  | [] => []
  | I2C_Transmit _ _ pData _ :: t' => pData ++ packets t'
  | Delay _ :: t' => packets t'
  end.

(** The bus-write transactions, i.e. the calls of [HAL_I2C_Master_Transmit]. *)
Fixpoint transactions (t : list Event) : list Event :=
  match t with
  | [] => []
  | I2C_Transmit h a d w :: t' => I2C_Transmit h a d w :: transactions t'
  | Delay _ :: t' => transactions t'
  end.

(* ------------------------------------------------------------------------- *)
(** ** LCD.c: private helpers *)

(** HAL_I2C_Master_Transmit(hi2c_lcd, lcd_addr, &packet, 1, 10) *)
Definition transmit_packet (packet : Z) : M unit :=
  g <- globals ;;
  HAL_I2C_Master_Transmit (hi2c_lcd g) (lcd_addr g) [packet] 10.

Definition LCD_WriteNibble (data rs : Z) : M unit :=
  let packet := data in
  let packet := if rs =? 0 then packet else u8 (Z.lor packet LCD_RS) in
  let packet := u8 (Z.lor packet LCD_BACKLIGHT) in
  let packet := u8 (Z.lor packet LCD_EN) in
  transmit_packet packet ;;
  HAL_Delay 1 ;;
  let packet := u8 (Z.land packet (Z.lnot LCD_EN)) in
  transmit_packet packet ;;
  HAL_Delay 1.

Definition LCD_WriteByte (data rs : Z) : M unit :=
  LCD_WriteNibble (u8 (Z.land data 0xF0)) rs ;;
  LCD_WriteNibble (u8 (Z.land (Z.shiftl data 4) 0xF0)) rs.

Definition LCD_WriteCommand (cmd : Z) : M unit := LCD_WriteByte cmd 0.

Definition LCD_WriteData (data : Z) : M unit := LCD_WriteByte data 1.

(** Defined in LCD.c but called from nowhere. *)
Definition LCD_PulseEnable (data : Z) : M unit :=
  transmit_packet data ;;
  HAL_Delay 1 ;;
  let data := u8 (Z.lor data LCD_EN) in
  transmit_packet data ;;
  HAL_Delay 1 ;;
  let data := u8 (Z.land data (Z.lnot LCD_EN)) in
  transmit_packet data ;;
  HAL_Delay 1.

(* ------------------------------------------------------------------------- *)
(** ** C library functions used by the driver *)

(** Modelled from the spec: the character of a decimal digit, for [itoa]. *)
Definition digit_char (d : Z) : ascii := ascii_of_N (Z.to_N (48 + d)).

(** Modelled from the spec: the digit loop of [itoa],
    [do { ... value /= 10; } while (value != 0)], which produces the least
    significant digit first.  Ten rounds cover every 32-bit magnitude
    ([utoa_rounds] below). *)
Fixpoint utoa_digits (rounds : nat) (value : Z) : list ascii :=
  match rounds with
  | O => []
  | S rounds' =>
      let remainder := value mod 10 in
      let value := value / 10 in
      digit_char remainder ::
        (if value =? 0 then [] else utoa_digits rounds' value)
  end.

(** Modelled from the spec: the decimal text of an unsigned 32-bit value,
    the digits of the loop put in reading order. *)
Definition utoa (value : Z) : string :=
  string_of_list_ascii (rev (utoa_digits 10 value)).

(** Modelled from the spec: [itoa(value, buffer, 10)] is a C library function
    and not part of the repository.  It leaves in [buffer] the decimal text
    of a signed integer, with a leading minus sign for a negative value; the
    magnitude is taken in unsigned arithmetic, so the least [int32_t] is
    covered too. *)
Definition itoa (value : Z) : string :=
  if value <? 0
  then String "-" (utoa (u32 (- value)))
  else utoa (u32 value).

(* ------------------------------------------------------------------------- *)
(** ** Loops *)

(** The loop of [LCD_PrintString]: read the character under [str], stop if
    it is NUL, otherwise run [body] on it and move [str] on.  The end of the
    Rocq string stands for the terminator; a NUL character inside it ends the
    C string there. *)
Fixpoint while_chars (str : string) (body : Z -> M unit) : M unit :=
  match str with
  | EmptyString => ret tt
  | String c str' =>
      let ch := Z.of_N (N_of_ascii c) in
      if ch =? 0 then ret tt else body ch ;; while_chars str' body
  end.

(** The loop of [LCD_CreateChar], [for (int i = 0; i < 8; i++) body(i)], the
    indices being [seq 0 8]. *)
Fixpoint for_each (idx : list nat) (body : nat -> M unit) : M unit :=
  match idx with
  | [] => ret tt
  | i :: idx' => body i ;; for_each idx' body
  end.

(* ------------------------------------------------------------------------- *)
(** ** LCD.c: public functions *)

Section Driver.

(** Modelled from the spec: [sprintf] is a C library function and not part of
    the repository.  [sprintf_fixed decimals num] is the text left in
    [buffer] by the two calls [sprintf(format, <percent.Nf>, decimals)] and
    [sprintf(buffer, format, num)]: [num] in fixed-point notation with
    [decimals] digits after the point.  Nothing is assumed about it. *)
Variable float : Type.
Variable sprintf_fixed : Z -> float -> string.

Definition LCD_Init (hi2c : Z) : M LCD_StatusTypeDef :=
  if hi2c =? NULL then ret LCD_ERROR else
  set_hi2c_lcd hi2c ;;
  HAL_Delay 50 ;;
  LCD_WriteNibble (Z.shiftl 0x03 4) 0 ;;
  HAL_Delay 5 ;;
  LCD_WriteNibble (Z.shiftl 0x03 4) 0 ;;
  HAL_Delay 1 ;;
  LCD_WriteNibble (Z.shiftl 0x03 4) 0 ;;
  HAL_Delay 1 ;;
  LCD_WriteNibble (Z.shiftl 0x02 4) 0 ;;
  HAL_Delay 1 ;;
  LCD_WriteCommand
    (Z.lor (Z.lor (Z.lor LCD_FUNCTION_SET LCD_4BIT_MODE) LCD_2LINE) LCD_5x8DOTS) ;;
  HAL_Delay 1 ;;
  LCD_WriteCommand LCD_DISPLAY_CONTROL ;;
  HAL_Delay 1 ;;
  LCD_WriteCommand LCD_CLEAR_DISPLAY ;;
  HAL_Delay 2 ;;
  LCD_WriteCommand (Z.lor LCD_ENTRY_MODE_SET LCD_ENTRY_LEFT) ;;
  HAL_Delay 1 ;;
  LCD_WriteCommand (Z.lor LCD_DISPLAY_CONTROL LCD_DISPLAY_ON) ;;
  HAL_Delay 1 ;;
  ret LCD_OK.

Definition LCD_Clear : M LCD_StatusTypeDef :=
  g <- globals ;;
  if hi2c_lcd g =? NULL then ret LCD_NOT_INITIALIZED else
  LCD_WriteCommand LCD_CLEAR_DISPLAY ;;
  HAL_Delay 2 ;;
  ret LCD_OK.

Definition row_offsets : list Z := [0x00; 0x40; 0x14; 0x54].

Definition LCD_SetCursor (row col : Z) : M LCD_StatusTypeDef :=
  g <- globals ;;
  if hi2c_lcd g =? NULL then ret LCD_NOT_INITIALIZED else
  let row := if row >=? 4 then 3 else row in
  let col := if col >=? 20 then 19 else col in
  LCD_WriteCommand
    (u8 (Z.lor LCD_SET_DDRAM_ADDR (col + nth (Z.to_nat row) row_offsets 0))) ;;
  ret LCD_OK.

(** [str] is [None] for a null pointer. *)
Definition LCD_PrintString (str : option string) : M LCD_StatusTypeDef :=
  g <- globals ;;
  if hi2c_lcd g =? NULL then ret LCD_NOT_INITIALIZED else
  match str with
  | None => ret LCD_ERROR
  | Some str =>
      while_chars str LCD_WriteData ;;
      ret LCD_OK
  end.

Definition LCD_PrintInt (num : Z) : M LCD_StatusTypeDef :=
  g <- globals ;;
  if hi2c_lcd g =? NULL then ret LCD_NOT_INITIALIZED else
  let buffer := itoa num in
  LCD_PrintString (Some buffer).

Definition LCD_PrintFloat (num : float) (decimals : Z) : M LCD_StatusTypeDef :=
  g <- globals ;;
  if hi2c_lcd g =? NULL then ret LCD_NOT_INITIALIZED else
  let decimals := if decimals >? 6 then 6 else decimals in
  let buffer := sprintf_fixed decimals num in
  LCD_PrintString (Some buffer).

(** [charmap] is the array behind the pointer; the loop reads its first
    eight cells (a shorter array is read as 0 beyond its end). *)
Definition LCD_CreateChar (location : Z) (charmap : list Z)
    : M LCD_StatusTypeDef :=
  g <- globals ;;
  if hi2c_lcd g =? NULL then ret LCD_NOT_INITIALIZED else
  if location >? 7 then ret LCD_ERROR else
  LCD_WriteCommand (u8 (Z.lor LCD_SET_CGRAM_ADDR (Z.shiftl location 3))) ;;
  for_each (seq 0 8) (fun i => LCD_WriteData (nth i charmap 0)) ;;
  ret LCD_OK.

Definition LCD_WriteChar (location : Z) : M LCD_StatusTypeDef :=
  g <- globals ;;
  if hi2c_lcd g =? NULL then ret LCD_NOT_INITIALIZED else
  if location >? 7 then ret LCD_ERROR else
  LCD_WriteData location ;;
  ret LCD_OK.

Definition LCD_Display (state : Z) : M LCD_StatusTypeDef :=
  g <- globals ;;
  if hi2c_lcd g =? NULL then ret LCD_NOT_INITIALIZED else
  (if state =? 0
   then LCD_WriteCommand LCD_DISPLAY_CONTROL
   else LCD_WriteCommand (Z.lor LCD_DISPLAY_CONTROL LCD_DISPLAY_ON)) ;;
  ret LCD_OK.

Definition LCD_Cursor (state : Z) : M LCD_StatusTypeDef :=
  g <- globals ;;
  if hi2c_lcd g =? NULL then ret LCD_NOT_INITIALIZED else
  let command := Z.lor LCD_DISPLAY_CONTROL LCD_DISPLAY_ON in
  let command := if state =? 0 then command else u8 (Z.lor command LCD_CURSOR_ON) in
  LCD_WriteCommand command ;;
  ret LCD_OK.

Definition LCD_Blink (state : Z) : M LCD_StatusTypeDef :=
  g <- globals ;;
  if hi2c_lcd g =? NULL then ret LCD_NOT_INITIALIZED else
  let command := Z.lor LCD_DISPLAY_CONTROL LCD_DISPLAY_ON in
  let command := if state =? 0 then command else u8 (Z.lor command LCD_BLINK_ON) in
  LCD_WriteCommand command ;;
  ret LCD_OK.

Definition LCD_SetAddress (address : Z) : M LCD_StatusTypeDef :=
  set_lcd_addr address ;;
  ret LCD_OK.

Definition LCD_ScrollLeft : M LCD_StatusTypeDef :=
  g <- globals ;;
  if hi2c_lcd g =? NULL then ret LCD_NOT_INITIALIZED else
  LCD_WriteCommand (Z.lor (Z.lor LCD_CURSOR_SHIFT LCD_DISPLAY_MOVE) LCD_MOVE_LEFT) ;;
  ret LCD_OK.

Definition LCD_ScrollRight : M LCD_StatusTypeDef :=
  g <- globals ;;
  if hi2c_lcd g =? NULL then ret LCD_NOT_INITIALIZED else
  LCD_WriteCommand (Z.lor (Z.lor LCD_CURSOR_SHIFT LCD_DISPLAY_MOVE) LCD_MOVE_RIGHT) ;;
  ret LCD_OK.

Definition LCD_Home : M LCD_StatusTypeDef :=
  g <- globals ;;
  if hi2c_lcd g =? NULL then ret LCD_NOT_INITIALIZED else
  LCD_WriteCommand LCD_RETURN_HOME ;;
  HAL_Delay 2 ;;
  ret LCD_OK.

(** The public functions of LCD.c as one call type: the two that do not look
    at [hi2c_lcd] first, and the thirteen that do. *)
Inductive Operation : Type :=
| Clear
| SetCursor (row col : Z)
| PrintString (str : option string)
| PrintInt (num : Z)
| PrintFloat (num : float) (decimals : Z)
| CreateChar (location : Z) (charmap : list Z)
| WriteChar (location : Z)
| Display (state : Z)
| Cursor (state : Z)
| Blink (state : Z)
| ScrollLeft
| ScrollRight
| Home.

Inductive Call : Type :=
| Init (hi2c : Z)
| SetAddress (address : Z)
| Op (o : Operation).

Definition run_operation (o : Operation) : M LCD_StatusTypeDef :=
  match o with
  | Clear => LCD_Clear
  | SetCursor row col => LCD_SetCursor row col
  | PrintString str => LCD_PrintString str
  | PrintInt num => LCD_PrintInt num
  | PrintFloat num decimals => LCD_PrintFloat num decimals
  | CreateChar location charmap => LCD_CreateChar location charmap
  | WriteChar location => LCD_WriteChar location
  | Display state => LCD_Display state
  | Cursor state => LCD_Cursor state
  | Blink state => LCD_Blink state
  | ScrollLeft => LCD_ScrollLeft
  | ScrollRight => LCD_ScrollRight
  | Home => LCD_Home
  end.

Definition run (c : Call) : M LCD_StatusTypeDef :=
  match c with
  | Init hi2c => LCD_Init hi2c
  | SetAddress address => LCD_SetAddress address
  | Op o => run_operation o
  end.

End Driver.

Arguments LCD_PrintFloat {float} sprintf_fixed num decimals.
Arguments Clear {float}.
Arguments SetCursor {float} row col.
Arguments PrintString {float} str.
Arguments PrintInt {float} num.
Arguments PrintFloat {float} num decimals.
Arguments CreateChar {float} location charmap.
Arguments WriteChar {float} location.
Arguments Display {float} state.
Arguments Cursor {float} state.
Arguments Blink {float} state.
Arguments ScrollLeft {float}.
Arguments ScrollRight {float}.
Arguments Home {float}.
Arguments Init {float} hi2c.
Arguments SetAddress {float} address.
Arguments Op {float} o.
Arguments run_operation {float} sprintf_fixed o.
Arguments run {float} sprintf_fixed c.

(* ------------------------------------------------------------------------- *)
(** ** LCD.h: the print-at macros

    Each macro is a statement, [do { LCD_SetCursor(row, col); LCD_Print...; }
    while(0)]: the two status values are dropped. *)

Definition LCD_PRINT_AT (row col : Z) (str : option string) : M unit :=
  LCD_SetCursor row col ;;
  LCD_PrintString str ;;
  ret tt.



(* ------------------------------------------------------------------------- *)
(** ** The far end of the bus

    What the properties below observe.  None of this is driver code: it is
    how the expander's output pins are read by the display controller. *)

(** A transport handle is bound. *)
Definition initialized (g : Globals) : Prop := hi2c_lcd g <> NULL.

(** Whether all bits of [mask] are set in [p]. *)
Definition bits_set (mask p : Z) : bool := Z.land p mask =? mask.

(** A packet with the RS, backlight and enable bits masked off. *)
Definition strip_control (p : Z) : Z :=
  Z.land p (Z.lnot (Z.lor (Z.lor LCD_RS LCD_BACKLIGHT) LCD_EN)).

(** The byte made of the data nibble of a first nibble-transfer (high
    nibble) and the data nibble of a second one (low nibble). *)
Definition reconstruct (first second : Z) : Z :=
  Z.lor (strip_control first) (Z.shiftr (strip_control second) 4).

(** A nibble-transfer happens when EN falls: the packet that held EN high is
    taken when the next packet has EN low.  [prev] is the packet currently
    on the pins. *)
Fixpoint latched (prev : Z) (ps : list Z) : list Z :=
  match ps with
  | [] => []
  | p :: ps' =>
      if bits_set LCD_EN prev && negb (bits_set LCD_EN p)
      then prev :: latched p ps'
      else latched p ps'
  end.

Definition nibble_transfers (ps : list Z) : list Z := latched 0 ps.

Inductive Written : Set :=
| Command (byte : Z)
| Data (byte : Z).

(** In 4-bit mode two nibble-transfers make one byte; RS tells a data
    byte from a command byte. *)
Fixpoint wire_bytes (ns : list Z) : list Written :=
  match ns with
  | first :: second :: ns' =>
      (if bits_set LCD_RS first
       then Data (reconstruct first second)
       else Command (reconstruct first second)) :: wire_bytes ns'
  | _ => []
  end.

Definition received (t : list Event) : list Written :=
  wire_bytes (nibble_transfers (packets t)).

(** The characters of a C string as bytes, up to its terminator. *)
Fixpoint c_bytes (str : string) : list Z :=
  match str with
  | EmptyString => []
  | String c str' =>
      let ch := Z.of_N (N_of_ascii c) in
      if ch =? 0 then [] else ch :: c_bytes str'
  end.

(* ------------------------------------------------------------------------- *)
(** ** Vocabulary of the properties *)

(** [x] brought into the range [lo..hi]. *)
Definition clamp (lo hi x : Z) : Z := Z.max lo (Z.min x hi).

(** The number written by decimal digits, least significant first. *)
Fixpoint digits_value (ds : list ascii) : Z :=
  match ds with
  | [] => 0
  | d :: ds' => (Z.of_N (N_of_ascii d) - 48) + 10 * digits_value ds'
  end.

(** The number a decimal text stands for, with an optional leading minus. *)
Definition text_value (s : string) : Z :=
  match s with
  | String "-" s' => - digits_value (rev (list_ascii_of_string s'))
  | _ => digits_value (rev (list_ascii_of_string s))
  end.

(** A check of all [n] integers below [n], downwards. *)
Fixpoint below (n : nat) (P : Z -> bool) : bool :=
  match n with
  | O => true
  | S n' => P (Z.of_nat n') && below n' P
  end.

(* ------------------------------------------------------------------------- *)
(** ** The events of the helpers in closed form

    [LCD_WriteNibble] and [LCD_WriteByte] have no branch on the globals, so
    what they emit is a function of their arguments; the lemmas
    [LCD_WriteNibble_run] and [LCD_WriteByte_run] below tie these closed
    forms to the code. *)

(** The two packets of one call of [LCD_WriteNibble], and its events. *)
Definition pulse_high (data rs : Z) : Z :=
  u8 (Z.lor
        (u8 (Z.lor (if rs =? 0 then data else u8 (Z.lor data LCD_RS))
                   LCD_BACKLIGHT))
        LCD_EN).

Definition pulse_low (data rs : Z) : Z :=
  u8 (Z.land (pulse_high data rs) (Z.lnot LCD_EN)).

Definition nibble_events (g : Globals) (data rs : Z) : list Event :=
  [ I2C_Transmit (hi2c_lcd g) (lcd_addr g) [pulse_high data rs] 10; Delay 1;
    I2C_Transmit (hi2c_lcd g) (lcd_addr g) [pulse_low data rs] 10; Delay 1 ].

Definition byte_events (g : Globals) (data rs : Z) : list Event :=
  nibble_events g (u8 (Z.land data 0xF0)) rs ++
  nibble_events g (u8 (Z.land (Z.shiftl data 4) 0xF0)) rs.

(** The four packets of one call of [LCD_WriteByte]. *)
Definition byte_packets (data rs : Z) : list Z :=
  [ pulse_high (u8 (Z.land data 0xF0)) rs;
    pulse_low (u8 (Z.land data 0xF0)) rs;
    pulse_high (u8 (Z.land (Z.shiftl data 4) 0xF0)) rs;
    pulse_low (u8 (Z.land (Z.shiftl data 4) 0xF0)) rs ].

(** The bit-level facts about the framing of one byte, as one check: EN is
    pulsed high then low for each nibble, the high nibble of [b] travels in
    the first pulse and the low nibble in the second, and RS follows [rs]. *)
Definition framing_ok (rs b : Z) : bool :=
  match byte_packets b rs with
  | [p1; p2; p3; p4] =>
      bits_set LCD_EN p1 && negb (bits_set LCD_EN p2) &&
      bits_set LCD_EN p3 && negb (bits_set LCD_EN p4) &&
      (strip_control p1 =? Z.land b 0xF0) &&
      (Z.shiftr (strip_control p3) 4 =? Z.land b 0x0F) &&
      (reconstruct p1 p3 =? b) &&
      Bool.eqb (bits_set LCD_RS p1) (negb (rs =? 0))
  | _ => false
  end.

(** What the driver means to write, and the events that write it. *)
Definition write_events (g : Globals) (w : Written) : list Event :=
  match w with
  | Command b => byte_events g b 0
  | Data b => byte_events g b 1
  end.

Definition write_packets (w : Written) : list Z :=
  match w with
  | Command b => byte_packets b 0
  | Data b => byte_packets b 1
  end.

Definition written_byte (w : Written) : Z :=
  match w with Command b => b | Data b => b end.

(* ------------------------------------------------------------------------- *)
(** ** Properties of a whole call *)

(** The backlight bit of a transmitted byte, and of the bytes of an event. *)
Definition backlit (p : Z) : Prop := bits_set LCD_BACKLIGHT p = true.

Definition event_backlit (e : Event) : Prop :=
  match e with
  | I2C_Transmit _ _ pData _ => Forall backlit pData
  | Delay _ => True
  end.

Inductive returned : LCD_StatusTypeDef -> Prop :=
| returned_ok : returned LCD_OK
| returned_error : returned LCD_ERROR
| returned_not_initialized : returned LCD_NOT_INITIALIZED.

(** [Sat Q m]: from any globals, [m] returns a value in [Q] and every byte
    it transmits has the backlight bit. *)
Definition Sat {A} (Q : A -> Prop) (m : M A) : Prop :=
  forall g, Q (status_of (m g)) /\ Forall event_backlit (events_of (m g)).

Definition any {A} (_ : A) : Prop := True.

(* ------------------------------------------------------------------------- *)
(** ** Vocabulary of the properties of whole traces *)

(** The time spent in [HAL_Delay], in milliseconds. *)
Fixpoint delay_ms (t : list Event) : Z :=
  match t with
  | [] => 0
  | Delay ms :: t' => ms + delay_ms t'
  | I2C_Transmit _ _ _ _ :: t' => delay_ms t'
  end.

(** A transmit goes to the handle and the address held in [g], carries one
    byte and uses the 10 ms timeout. *)
Definition targets_event (g : Globals) (e : Event) : Prop :=
  match e with
  | I2C_Transmit hi2c DevAddress pData Timeout =>
      hi2c = hi2c_lcd g /\ DevAddress = lcd_addr g /\
      List.length pData = 1%nat /\ Timeout = 10
  | Delay _ => True
  end.

Definition targets (g : Globals) (t : list Event) : Prop :=
  Forall (targets_event g) t.

(** Every transmitted byte is an 8-bit value with the R/W pin low. *)
Definition write_only (t : list Event) : Prop :=
  Forall (fun p => is_u8 p /\ bits_set LCD_RW p = false) (packets t).

(** Every transmit is directly followed by a delay of at least 1 ms. *)
Fixpoint paced (t : list Event) : Prop :=
  match t with
  | [] => True
  | Delay _ :: t' => paced t'
  | I2C_Transmit _ _ _ _ :: Delay ms :: t' => 1 <= ms /\ paced t'
  | I2C_Transmit _ _ _ _ :: _ => False
  end.

(** [Keeps T m]: from any globals [g], [m] leaves the globals as they were
    and its events satisfy [T g]. *)
Definition Keeps (T : Globals -> list Event -> Prop) {A} (m : M A) : Prop :=
  forall g, globals_of (m g) = g /\ T g (events_of (m g)).

(** The globals after a series of public calls. *)
Definition after_calls {float : Type} (sprintf_fixed : Z -> float -> string)
    (cs : list (Call float)) (g : Globals) : Globals :=
  fold_left (fun g c => globals_of (run sprintf_fixed c g)) cs g.

(** The set-DDRAM-address command for a cursor position: both coordinates
    clamped, the row turned into its base address. *)
Definition cursor_command (row col : Z) : Z :=
  Z.lor 0x80 (clamp 0 19 col + nth (Z.to_nat (clamp 0 3 row)) [0x00; 0x40; 0x14; 0x54] 0).

(** The events of a series of public calls, each run from the globals the
    one before left. *)
Fixpoint events_of_calls {float : Type} (sprintf_fixed : Z -> float -> string)
    (cs : list (Call float)) (g : Globals) : list Event :=
  match cs with
  | [] => []
  | c :: cs' =>
      events_of (run sprintf_fixed c g) ++
      events_of_calls sprintf_fixed cs' (globals_of (run sprintf_fixed c g))
  end.

(** The byte of a character. *)
Definition char_byte (c : ascii) : Z := Z.of_N (N_of_ascii c).

(* ------------------------------------------------------------------------- *)
(** ** Running the helpers *)

Lemma below_sound (n : nat) (P : Z -> bool) :
  below n P = true -> forall z, 0 <= z < Z.of_nat n -> P z = true.
Proof.
  induction n as [|n IH]; intros H z Hz; [lia|].
  simpl in H. apply andb_true_iff in H. destruct H as [Hn Hrest].
  destruct (Z.eq_dec z (Z.of_nat n)) as [->|Hne]; [exact Hn|].
  apply IH; [exact Hrest|lia].
Qed.

Lemma every_byte (P : Z -> bool) :
  below 256 P = true -> forall b, is_u8 b -> P b = true.
Proof. intros H b Hb. apply (below_sound 256 P H). exact Hb. Qed.

Lemma LCD_WriteNibble_run (data rs : Z) (g : Globals) :
  LCD_WriteNibble data rs g = (tt, g, nibble_events g data rs).
Proof. reflexivity. Qed.

Lemma LCD_WriteByte_run (data rs : Z) (g : Globals) :
  LCD_WriteByte data rs g = (tt, g, byte_events g data rs).
Proof. reflexivity. Qed.

Lemma guard_closed (g : Globals) (k : M LCD_StatusTypeDef) :
  hi2c_lcd g = NULL ->
  (g' <- globals ;; if hi2c_lcd g' =? NULL then ret LCD_NOT_INITIALIZED else k) g
  = (LCD_NOT_INITIALIZED, g, []).
Proof. intros H. unfold bind, globals. rewrite H. reflexivity. Qed.

Lemma guard_open (g : Globals) (k : M LCD_StatusTypeDef) :
  initialized g ->
  (g' <- globals ;; if hi2c_lcd g' =? NULL then ret LCD_NOT_INITIALIZED else k) g
  = k g.
Proof.
  intros H. unfold bind, globals.
  apply Z.eqb_neq in H. rewrite H.
  destruct (k g) as [[s g1] t]. reflexivity.
Qed.

(* ------------------------------------------------------------------------- *)
(** ** Framing of one byte *)

Lemma framing_checked_command : below 256 (framing_ok 0) = true.
Proof. vm_compute. reflexivity. Qed.

Lemma framing_checked_data : below 256 (framing_ok 1) = true.
Proof. vm_compute. reflexivity. Qed.

Lemma pulse_high_rs (data rs : Z) :
  pulse_high data rs = pulse_high data (if rs =? 0 then 0 else 1).
Proof. unfold pulse_high. destruct (rs =? 0); reflexivity. Qed.

Lemma byte_packets_rs (data rs : Z) :
  byte_packets data rs = byte_packets data (if rs =? 0 then 0 else 1).
Proof.
  unfold byte_packets, pulse_low.
  rewrite (pulse_high_rs _ rs),
          (pulse_high_rs (u8 (Z.land (Z.shiftl data 4) 0xF0)) rs).
  reflexivity.
Qed.

Lemma framing_ok_byte (rs b : Z) : is_u8 b -> framing_ok rs b = true.
Proof.
  intros Hb. unfold framing_ok. rewrite byte_packets_rs.
  destruct (rs =? 0).
  - exact (every_byte _ framing_checked_command b Hb).
  - exact (every_byte _ framing_checked_data b Hb).
Qed.

(** The same facts, one by one. *)
Lemma framing_facts (rs b : Z) :
  is_u8 b ->
  exists p1 p2 p3 p4,
    byte_packets b rs = [p1; p2; p3; p4] /\
    bits_set LCD_EN p1 = true /\ bits_set LCD_EN p2 = false /\
    bits_set LCD_EN p3 = true /\ bits_set LCD_EN p4 = false /\
    strip_control p1 = Z.land b 0xF0 /\
    Z.shiftr (strip_control p3) 4 = Z.land b 0x0F /\
    reconstruct p1 p3 = b /\
    bits_set LCD_RS p1 = negb (rs =? 0).
Proof.
  intros Hb. pose proof (framing_ok_byte rs b Hb) as H.
  unfold framing_ok in H. unfold byte_packets in *.
  do 4 eexists. split; [reflexivity|].
  repeat (apply andb_true_iff in H; destruct H as [H ?]).
  repeat match goal with
         | X : negb _ = true |- _ => apply negb_true_iff in X
         | X : (_ =? _) = true |- _ => apply Z.eqb_eq in X
         | X : Bool.eqb _ _ = true |- _ => apply Bool.eqb_prop in X
         end.
  repeat split; assumption.
Qed.

Lemma packets_app (t1 t2 : list Event) :
  packets (t1 ++ t2) = packets t1 ++ packets t2.
Proof.
  induction t1 as [|[h a d w|ms] t1 IH]; simpl; [reflexivity| |exact IH].
  rewrite IH. apply app_assoc.
Qed.

Lemma transactions_app (t1 t2 : list Event) :
  transactions (t1 ++ t2) = transactions t1 ++ transactions t2.
Proof.
  induction t1 as [|[h a d w|ms] t1 IH]; simpl; [reflexivity| |exact IH].
  now rewrite IH.
Qed.

Lemma packets_byte_events (g : Globals) (b rs : Z) :
  packets (byte_events g b rs) = byte_packets b rs.
Proof. reflexivity. Qed.

Lemma packets_write_events (g : Globals) (w : Written) :
  packets (write_events g w) = write_packets w.
Proof. destruct w; reflexivity. Qed.

(** With EN low on the pins, the four packets of a byte give two
    nibble-transfers, and the controller is left with EN low again. *)
Lemma latched_byte (prev b rs : Z) (rest : list Z) :
  is_u8 b ->
  bits_set LCD_EN prev = false ->
  exists first second last,
    latched prev (byte_packets b rs ++ rest)
      = first :: second :: latched last rest /\
    bits_set LCD_EN last = false /\
    reconstruct first second = b /\
    bits_set LCD_RS first = negb (rs =? 0).
Proof.
  intros Hb Hprev.
  destruct (framing_facts rs b Hb)
    as (p1 & p2 & p3 & p4 & -> & E1 & E2 & E3 & E4 & _ & _ & R & S).
  exists p1, p3, p4. simpl.
  rewrite Hprev, E1, E2, E3, E4. simpl. auto.
Qed.

Lemma wire_bytes_frames (ws : list Written) :
  Forall (fun w => is_u8 (written_byte w)) ws ->
  forall prev, bits_set LCD_EN prev = false ->
  wire_bytes (latched prev (flat_map write_packets ws)) = ws.
Proof.
  induction 1 as [|w ws Hw _ IH]; intros prev Hprev; [reflexivity|].
  simpl flat_map.
  assert (exists rs, write_packets w = byte_packets (written_byte w) rs /\
                     (if negb (rs =? 0) then Data (written_byte w)
                      else Command (written_byte w)) = w) as (rs & -> & Hrs).
  { destruct w; [exists 0 | exists 1]; split; reflexivity. }
  destruct (latched_byte prev _ rs (flat_map write_packets ws) Hw Hprev)
    as (first & second & last & -> & Hlast & Hrec & Hsel).
  simpl. rewrite Hsel, Hrec, Hrs. f_equal. apply IH. exact Hlast.
Qed.

Lemma packets_flat_map (g : Globals) (ws : list Written) :
  packets (flat_map (write_events g) ws) = flat_map write_packets ws.
Proof.
  induction ws as [|w ws IH]; [reflexivity|].
  simpl. rewrite packets_app, packets_write_events, IH. reflexivity.
Qed.

Lemma received_frames (g : Globals) (ws : list Written) :
  Forall (fun w => is_u8 (written_byte w)) ws ->
  received (flat_map (write_events g) ws) = ws.
Proof.
  intros H. unfold received, nibble_transfers.
  rewrite packets_flat_map. apply wire_bytes_frames; [exact H|reflexivity].
Qed.

(* ------------------------------------------------------------------------- *)
(** ** Running a sequence *)

Lemma bind_run {A B} (m : M A) (k : A -> M B) (g g1 g2 : Globals)
    (a : A) (b : B) (t1 t2 : list Event) :
  m g = (a, g1, t1) -> k a g1 = (b, g2, t2) ->
  bind m k g = (b, g2, t1 ++ t2).
Proof. intros Hm Hk. unfold bind. rewrite Hm, Hk. reflexivity. Qed.

Lemma LCD_WriteCommand_run (cmd : Z) (g : Globals) :
  LCD_WriteCommand cmd g = (tt, g, write_events g (Command cmd)).
Proof. reflexivity. Qed.

Lemma LCD_WriteData_run (data : Z) (g : Globals) :
  LCD_WriteData data g = (tt, g, write_events g (Data data)).
Proof. reflexivity. Qed.

Lemma u8_byte (b : Z) : is_u8 b -> u8 b = b.
Proof. intros H. apply Z.mod_small. exact H. Qed.

Lemma received_one (g : Globals) (w : Written) :
  is_u8 (written_byte w) -> received (write_events g w) = [w].
Proof.
  intros H. rewrite <- (app_nil_r (write_events g w)).
  apply (received_frames g [w]). constructor; [exact H|constructor].
Qed.

(** C3: a byte sent with [LCD_WriteByte] reaches the controller as two
    nibble-transfers, the first carrying its high nibble and the second its
    low nibble; with the RS, backlight and enable bits masked off, the two
    give the byte back. *)
Theorem WriteByte_nibble_roundtrip (b rs : Z) (g : Globals) :
  is_u8 b ->
  exists first second,
    nibble_transfers (packets (events_of (LCD_WriteByte b rs g)))
      = [first; second] /\
    strip_control first = Z.land b 0xF0 /\
    Z.shiftr (strip_control second) 4 = Z.land b 0x0F /\
    reconstruct first second = b.
Proof.
  intros Hb. rewrite LCD_WriteByte_run. unfold events_of, snd.
  rewrite packets_byte_events.
  destruct (framing_facts rs b Hb)
    as (p1 & p2 & p3 & p4 & -> & E1 & E2 & E3 & E4 & Hhi & Hlo & Hrec & _).
  exists p1, p3. unfold nibble_transfers. simpl.
  rewrite E1, E2, E3, E4. simpl. auto.
Qed.

Lemma WriteByte_nibble_roundtrip_witness :
  exists first second,
    nibble_transfers (packets (events_of (LCD_WriteByte 0xA5 1 power_on)))
      = [first; second] /\
    strip_control first = Z.land 0xA5 0xF0 /\
    Z.shiftr (strip_control second) 4 = Z.land 0xA5 0x0F /\
    reconstruct first second = 0xA5.
Proof. apply (WriteByte_nibble_roundtrip 0xA5 1 power_on). unfold is_u8. lia. Defined.

Lemma run_operation_unbound
    (float : Type) (sprintf_fixed : Z -> float -> string)
    (o : Operation float) (g : Globals) :
  hi2c_lcd g = NULL ->
  run_operation sprintf_fixed o g = (LCD_NOT_INITIALIZED, g, []).
Proof.
  intros H.
  destruct o; cbn [run_operation];
    unfold LCD_Clear, LCD_SetCursor, LCD_PrintString, LCD_PrintInt,
           LCD_PrintFloat, LCD_CreateChar, LCD_WriteChar, LCD_Display,
           LCD_Cursor, LCD_Blink, LCD_ScrollLeft, LCD_ScrollRight, LCD_Home;
    apply guard_closed; exact H.
Qed.

(** C1: with no transport handle bound, each of the thirteen guarded
    operations returns [LCD_NOT_INITIALIZED], leaves the globals as they
    were, and issues no bus write (indeed no HAL call at all). *)
Theorem unbound_handle_not_initialized
    (float : Type) (sprintf_fixed : Z -> float -> string)
    (o : Operation float) (g : Globals) :
  hi2c_lcd g = NULL ->
  status_of (run_operation sprintf_fixed o g) = LCD_NOT_INITIALIZED /\
  transactions (events_of (run_operation sprintf_fixed o g)) = [] /\
  events_of (run_operation sprintf_fixed o g) = [] /\
  globals_of (run_operation sprintf_fixed o g) = g.
Proof.
  intros H. rewrite (run_operation_unbound float sprintf_fixed o g H).
  repeat split.
Qed.

Lemma unbound_handle_not_initialized_witness :
  let call := run_operation (fun _ (_ : unit) => EmptyString) (PrintFloat tt 2) in
  status_of (call power_on) = LCD_NOT_INITIALIZED /\
  transactions (events_of (call power_on)) = [] /\
  events_of (call power_on) = [] /\
  globals_of (call power_on) = power_on.
Proof.
  apply (unbound_handle_not_initialized unit _ (PrintFloat tt 2) power_on).
  reflexivity.
Defined.

(** A DDRAM address below 0x80 under the set-address bit is a byte. *)
Lemma ddram_command_byte (a : Z) :
  0 <= a < 128 -> is_u8 (Z.lor LCD_SET_DDRAM_ADDR a).
Proof.
  intros Ha.
  assert (below 256 (fun a => (128 <=? a) ||
            ((0 <=? Z.lor LCD_SET_DDRAM_ADDR a) &&
             (Z.lor LCD_SET_DDRAM_ADDR a <? 256))) = true) as H
    by (vm_compute; reflexivity).
  assert (Hc := every_byte _ H a ltac:(unfold is_u8; lia)). cbv beta in Hc.
  apply orb_true_iff in Hc. destruct Hc as [Hc|Hc].
  - apply Z.leb_le in Hc. lia.
  - apply andb_true_iff in Hc. destruct Hc as [H1 H2].
    apply Z.leb_le in H1. apply Z.ltb_lt in H2. split; assumption.
Qed.

(** C2: in the initialized state [LCD_SetCursor row col] returns [LCD_OK]
    and issues exactly one command byte, [0x80 | (col' + offset[row'])],
    where [row'] is [row] clamped to 0..3, [col'] is [col] clamped to 0..19
    and the offsets are 0x00, 0x40, 0x14, 0x54. *)
Theorem SetCursor_command (row col : Z) (g : Globals) :
  is_u8 row -> is_u8 col -> initialized g ->
  let row' := clamp 0 3 row in
  let col' := clamp 0 19 col in
  let cmd := Z.lor 0x80 (col' + nth (Z.to_nat row') [0x00; 0x40; 0x14; 0x54] 0) in
  status_of (LCD_SetCursor row col g) = LCD_OK /\
  events_of (LCD_SetCursor row col g) = events_of (LCD_WriteCommand cmd g) /\
  received (events_of (LCD_SetCursor row col g)) = [Command cmd].
Proof.
  intros Hrow Hcol Hg row' col' cmd.
  assert (Hr : (if row >=? 4 then 3 else row) = row').
  { unfold row', clamp, is_u8 in *. destruct (Z.geb_spec row 4); lia. }
  assert (Hc : (if col >=? 20 then 19 else col) = col').
  { unfold col', clamp, is_u8 in *. destruct (Z.geb_spec col 20); lia. }
  assert (Hcmd : is_u8 cmd).
  { apply ddram_command_byte.
    assert (0 <= col' <= 19) by (unfold col', clamp, is_u8 in *; lia).
    assert (row' = 0 \/ row' = 1 \/ row' = 2 \/ row' = 3) as Hcases
      by (unfold row', clamp, is_u8 in *; lia).
    destruct Hcases as [-> | [-> | [-> | ->]]]; simpl; lia. }
  assert (Hrun : LCD_SetCursor row col g
                 = (LCD_OK, g, write_events g (Command cmd) ++ [])).
  { unfold LCD_SetCursor. rewrite (guard_open g _ Hg), Hr, Hc.
    change (u8 _) with (u8 cmd). rewrite (u8_byte cmd Hcmd).
    eapply bind_run; [apply LCD_WriteCommand_run | reflexivity]. }
  rewrite Hrun, LCD_WriteCommand_run. unfold status_of, events_of. cbn [fst snd].
  rewrite app_nil_r. repeat split.
  apply received_one. exact Hcmd.
Qed.

Lemma SetCursor_command_witness :
  status_of (LCD_SetCursor 5 25 (mkGlobals 0x20000400 0x4E)) = LCD_OK /\
  events_of (LCD_SetCursor 5 25 (mkGlobals 0x20000400 0x4E))
    = events_of (LCD_WriteCommand (Z.lor 0x80 (19 + 0x54)) (mkGlobals 0x20000400 0x4E)) /\
  received (events_of (LCD_SetCursor 5 25 (mkGlobals 0x20000400 0x4E)))
    = [Command (Z.lor 0x80 (19 + 0x54))].
Proof.
  apply (SetCursor_command 5 25 (mkGlobals 0x20000400 0x4E));
    unfold is_u8, initialized, NULL; simpl; lia.
Defined.

(* ------------------------------------------------------------------------- *)
(** ** Sequences of bytes *)

Lemma while_chars_run (str : string) (g : Globals) :
  while_chars str LCD_WriteData g
  = (tt, g, flat_map (write_events g) (map Data (c_bytes str))).
Proof.
  induction str as [|c str IH]; [reflexivity|].
  cbn [while_chars c_bytes].
  destruct (Z.of_N (N_of_ascii c) =? 0); [reflexivity|].
  cbn [map flat_map].
  eapply bind_run; [apply LCD_WriteData_run | exact IH].
Qed.

Lemma for_each_run (charmap : list Z) (idx : list nat) (g : Globals) :
  for_each idx (fun i => LCD_WriteData (nth i charmap 0)) g
  = (tt, g,
     flat_map (write_events g) (map (fun i => Data (nth i charmap 0)) idx)).
Proof.
  induction idx as [|i idx IH]; [reflexivity|].
  cbn [for_each map flat_map].
  eapply bind_run; [apply LCD_WriteData_run | exact IH].
Qed.

Lemma c_bytes_u8 (str : string) :
  Forall (fun w => is_u8 (written_byte w)) (map Data (c_bytes str)).
Proof.
  induction str as [|c str IH]; cbn [c_bytes map]; [constructor|].
  destruct (Z.of_N (N_of_ascii c) =? 0); [constructor|].
  cbn [map]. constructor; [|exact IH].
  cbn [written_byte]. unfold is_u8. pose proof (N_ascii_bounded c). lia.
Qed.

Lemma transactions_frames (g : Globals) (ws : list Written) :
  List.length (transactions (flat_map (write_events g) ws))
  = (4 * List.length ws)%nat.
Proof.
  induction ws as [|w ws IH]; [reflexivity|].
  cbn [flat_map]. rewrite transactions_app, length_app, IH.
  cbn [List.length]. destruct w; cbn; lia.
Qed.

Lemma LCD_PrintString_run (str : string) (g : Globals) :
  initialized g ->
  LCD_PrintString (Some str) g
  = (LCD_OK, g, flat_map (write_events g) (map Data (c_bytes str)) ++ []).
Proof.
  intros Hg. unfold LCD_PrintString. rewrite (guard_open g _ Hg).
  eapply bind_run; [apply while_chars_run | reflexivity].
Qed.

Lemma command_then_ok (cmd : Z) (g : Globals) :
  (LCD_WriteCommand cmd ;; ret LCD_OK) g
  = (LCD_OK, g, flat_map (write_events g) [Command cmd]).
Proof. reflexivity. Qed.

(** C5, as amended: in the initialized state [LCD_PrintString "AB"] returns
    [LCD_OK] and writes exactly two data bytes, 'A' then 'B'; each byte is
    two nibble-transfers of two bus writes each, eight bus transactions in
    all. *)
Theorem PrintString_AB (g : Globals) :
  initialized g ->
  status_of (LCD_PrintString (Some "AB"%string) g) = LCD_OK /\
  received (events_of (LCD_PrintString (Some "AB"%string) g))
    = [Data 0x41; Data 0x42] /\
  List.length (transactions (events_of (LCD_PrintString (Some "AB"%string) g)))
    = 8%nat.
Proof.
  intros Hg. rewrite (LCD_PrintString_run _ g Hg).
  unfold status_of, events_of. cbn [fst snd]. rewrite app_nil_r.
  split; [reflexivity|]. split.
  - apply (received_frames g (map Data (c_bytes "AB"))). apply c_bytes_u8.
  - apply (transactions_frames g (map Data (c_bytes "AB"))).
Qed.

Lemma PrintString_AB_witness :
  status_of (LCD_PrintString (Some "AB"%string) (mkGlobals 0x20000400 0x4E)) = LCD_OK /\
  received (events_of (LCD_PrintString (Some "AB"%string) (mkGlobals 0x20000400 0x4E)))
    = [Data 0x41; Data 0x42] /\
  List.length (transactions
    (events_of (LCD_PrintString (Some "AB"%string) (mkGlobals 0x20000400 0x4E))))
    = 8%nat.
Proof.
  apply (PrintString_AB (mkGlobals 0x20000400 0x4E)).
  unfold initialized, NULL. simpl. lia.
Defined.

(** C5 as stated fails: the bus sees eight transactions, not four. *)
Lemma PrintString_AB_not_four_transactions :
  ~ (received (events_of (LCD_PrintString (Some "AB"%string) (mkGlobals 0x20000400 0x4E)))
       = [Data 0x41; Data 0x42] /\
     List.length (transactions
       (events_of (LCD_PrintString (Some "AB"%string) (mkGlobals 0x20000400 0x4E))))
       = 4%nat).
Proof. intros [_ H]. vm_compute in H. discriminate H. Qed.

Lemma first_eight (charmap : list Z) :
  List.length charmap = 8%nat ->
  map (fun i => Data (nth i charmap 0)) (seq 0 8) = map Data charmap.
Proof.
  intros H.
  do 8 (destruct charmap as [|? charmap]; [discriminate H|]).
  destruct charmap; [reflexivity|discriminate H].
Qed.

(** C4, as amended: in the initialized state [LCD_CreateChar 8 glyph] returns
    [LCD_ERROR] without any HAL call, and [LCD_CreateChar 3 glyph] returns
    [LCD_OK] after one set-CGRAM-address command [0x40 | (3 << 3)] followed
    by the eight glyph bytes as data, in order; each of the nine bytes is two
    nibble-transfers of two bus writes each, 36 bus transactions in all. *)
Theorem CreateChar_slots (glyph : list Z) (g : Globals) :
  initialized g ->
  LCD_CreateChar 8 glyph g = (LCD_ERROR, g, []) /\
  status_of (LCD_CreateChar 3 glyph g) = LCD_OK /\
  List.length (transactions (events_of (LCD_CreateChar 3 glyph g))) = 36%nat /\
  (List.length glyph = 8%nat -> Forall is_u8 glyph ->
   received (events_of (LCD_CreateChar 3 glyph g))
     = Command (Z.lor 0x40 (Z.shiftl 3 3)) :: map Data glyph).
Proof.
  intros Hg. split.
  { unfold LCD_CreateChar. rewrite (guard_open g _ Hg). reflexivity. }
  assert (Hrun : LCD_CreateChar 3 glyph g
            = (LCD_OK, g,
               flat_map (write_events g)
                 (Command (Z.lor 0x40 (Z.shiftl 3 3))
                    :: map (fun i => Data (nth i glyph 0)) (seq 0 8)))).
  { unfold LCD_CreateChar. rewrite (guard_open g _ Hg).
    change (3 >? 7) with false. cbv iota.
    change (flat_map (write_events g) (?c :: ?l))
      with (write_events g c ++ flat_map (write_events g) l).
    rewrite <- (app_nil_r (flat_map _ (map _ (seq 0 8)))).
    eapply bind_run; [apply LCD_WriteCommand_run|].
    eapply bind_run; [apply for_each_run | reflexivity]. }
  rewrite Hrun. unfold status_of, events_of. cbn [fst snd].
  split; [reflexivity|]. split.
  - rewrite transactions_frames. cbn [List.length].
    rewrite length_map, length_seq. reflexivity.
  - intros Hlen Hbytes. rewrite (first_eight glyph Hlen).
    apply received_frames. constructor.
    + cbn. unfold is_u8. lia.
    + clear -Hbytes. induction Hbytes; constructor; assumption.
Qed.

Lemma CreateChar_slots_witness :
  let glyph := [0x00; 0x0A; 0x1F; 0x1F; 0x0E; 0x04; 0x00; 0x00] in
  let g := mkGlobals 0x20000400 0x4E in
  LCD_CreateChar 8 glyph g = (LCD_ERROR, g, []) /\
  status_of (LCD_CreateChar 3 glyph g) = LCD_OK /\
  List.length (transactions (events_of (LCD_CreateChar 3 glyph g))) = 36%nat /\
  received (events_of (LCD_CreateChar 3 glyph g))
    = Command 0x58 :: map Data glyph.
Proof.
  intros glyph g.
  assert (Hg : initialized g) by (unfold initialized, NULL; simpl; lia).
  destruct (CreateChar_slots glyph g Hg) as (H1 & H2 & H3 & H4).
  split; [exact H1|]. split; [exact H2|]. split; [exact H3|].
  apply H4; [reflexivity|].
  repeat constructor; unfold is_u8; lia.
Defined.

(** C4 as stated fails: the bus sees 36 transactions, not 18. *)
Lemma CreateChar_not_eighteen_transactions :
  ~ (List.length (transactions
       (events_of (LCD_CreateChar 3 [0x00; 0x0A; 0x1F; 0x1F; 0x0E; 0x04; 0x00; 0x00]
                     (mkGlobals 0x20000400 0x4E))))
     = 18%nat).
Proof. intros H. vm_compute in H. discriminate H. Qed.

(* ------------------------------------------------------------------------- *)
(** ** The decimal text of an integer *)

Lemma digit_char_value (d : Z) :
  0 <= d < 10 -> Z.of_N (N_of_ascii (digit_char d)) = 48 + d.
Proof.
  intros Hd. unfold digit_char.
  rewrite N_ascii_embedding by lia. lia.
Qed.

Lemma utoa_digits_step (n : nat) (v : Z) :
  utoa_digits (S n) v
  = digit_char (v mod 10)
      :: (if v / 10 =? 0 then [] else utoa_digits n (v / 10)).
Proof. reflexivity. Qed.

Lemma utoa_digits_enough (n extra : nat) (v : Z) :
  0 <= v < 10 ^ Z.of_nat (S n) ->
  utoa_digits (S n + extra) v = utoa_digits (S n) v.
Proof.
  revert v. induction n as [|n IH]; intros v Hv.
  - cbn [utoa_digits Nat.add].
    replace (v / 10) with 0 by (change (10 ^ Z.of_nat 1) with 10 in Hv;
                                 symmetry; apply Z.div_small; lia).
    reflexivity.
  - change (S (S n) + extra)%nat with (S (S n + extra)).
    rewrite (utoa_digits_step (S n + extra)), (utoa_digits_step (S n)).
    destruct (v / 10 =? 0); [reflexivity|].
    f_equal. apply IH.
    rewrite Nat2Z.inj_succ, Z.pow_succ_r in Hv by lia.
    split; [apply Z.div_pos; lia | apply Z.div_lt_upper_bound; lia].
Qed.

Lemma utoa_digits_value (n : nat) (v : Z) :
  0 <= v < 10 ^ Z.of_nat (S n) ->
  digits_value (utoa_digits (S n) v) = v.
Proof.
  revert v. induction n as [|n IH]; intros v Hv.
  - change (10 ^ Z.of_nat 1) with 10 in Hv.
    cbn [utoa_digits]. rewrite Z.mod_small, Z.div_small by lia.
    cbn [Z.eqb digits_value]. rewrite digit_char_value by lia. lia.
  - rewrite utoa_digits_step.
    rewrite Nat2Z.inj_succ, Z.pow_succ_r in Hv by lia.
    assert (0 <= v mod 10 < 10) by (apply Z.mod_pos_bound; lia).
    pose proof (Z.div_mod v 10 ltac:(lia)) as Hdm.
    destruct (v / 10 =? 0) eqn:Hq; cbn [digits_value];
      rewrite digit_char_value by assumption.
    + apply Z.eqb_eq in Hq. cbn [digits_value]. lia.
    + rewrite IH; [lia|].
      split; [apply Z.div_pos; lia | apply Z.div_lt_upper_bound; lia].
Qed.

Lemma utoa_value (v : Z) : 0 <= v < 4294967296 ->
  digits_value (rev (list_ascii_of_string (utoa v))) = v.
Proof.
  intros Hv. unfold utoa.
  rewrite list_ascii_of_string_of_list_ascii, rev_involutive.
  apply (utoa_digits_value 9). change (10 ^ Z.of_nat 10) with 10000000000. lia.
Qed.

Lemma utoa_no_sign (v : Z) : 0 <= v ->
  text_value (utoa v) = digits_value (rev (list_ascii_of_string (utoa v))).
Proof.
  intros Hv. unfold utoa.
  remember (rev (utoa_digits 10 v)) as ds eqn:Hds.
  destruct ds as [|d ds]; [reflexivity|].
  assert (In d (utoa_digits 10 v)) as Hin
    by (apply in_rev; rewrite <- Hds; left; reflexivity).
  assert (forall n w, 0 <= w -> forall c, In c (utoa_digits n w) ->
            exists k, 0 <= k < 10 /\ c = digit_char k) as Hdig.
  { induction n as [|n IHn]; intros w Hw c Hc; [destruct Hc|].
    cbn [utoa_digits] in Hc. destruct Hc as [<-|Hc].
    - exists (w mod 10). split; [apply Z.mod_pos_bound; lia|reflexivity].
    - destruct (w / 10 =? 0); [destruct Hc|].
      apply (IHn (w / 10)); [apply Z.div_pos; lia|exact Hc]. }
  destruct (Hdig _ _ Hv _ Hin) as (k & Hk & ->).
  assert (k = 0 \/ k = 1 \/ k = 2 \/ k = 3 \/ k = 4 \/ k = 5 \/ k = 6 \/
          k = 7 \/ k = 8 \/ k = 9) as Hcases by lia.
  cbn [string_of_list_ascii].
  repeat (destruct Hcases as [->|Hcases]; [reflexivity|]). subst k. reflexivity.
Qed.

(** The text written by [itoa] is the decimal text of its argument. *)
Lemma itoa_value (num : Z) : is_i32 num -> text_value (itoa num) = num.
Proof.
  unfold is_i32, itoa. intros Hnum.
  destruct (Z.ltb_spec num 0) as [Hneg|Hpos].
  - cbn [text_value]. unfold u32. rewrite Z.mod_small by lia.
    rewrite utoa_value by lia. lia.
  - unfold u32. rewrite Z.mod_small by lia.
    rewrite utoa_no_sign by lia. apply utoa_value. lia.
Qed.

Example itoa_zero : itoa 0 = "0"%string.
Proof. reflexivity. Qed.

Example itoa_int_max : itoa 2147483647 = "2147483647"%string.
Proof. reflexivity. Qed.

Example itoa_int_min : itoa (-2147483648) = "-2147483648"%string.
Proof. reflexivity. Qed.

(** Ten rounds are enough for any 32-bit magnitude: more rounds add no
    digit. *)
Lemma utoa_rounds (extra : nat) (v : Z) :
  utoa_digits (10 + extra) (u32 v) = utoa_digits 10 (u32 v).
Proof.
  apply (utoa_digits_enough 9 extra).
  assert (0 <= u32 v < 4294967296) by (apply Z.mod_pos_bound; lia).
  change (10 ^ Z.of_nat 10) with 10000000000. lia.
Qed.

(** C6: in the initialized state [LCD_PrintInt] hands the decimal text of
    its argument, with a leading minus sign when it is negative, to
    [LCD_PrintString]; for -42 that text is "-42", so [LCD_PrintInt (-42)]
    and [LCD_PrintString "-42"] give the same status and the same bus
    transactions, namely those of the data bytes '-', '4', '2'. *)
Theorem PrintInt_minus_42 (g : Globals) :
  initialized g ->
  (forall num, is_i32 num ->
     LCD_PrintInt num g = LCD_PrintString (Some (itoa num)) g /\
     text_value (itoa num) = num /\
     (num < 0 -> exists digits, itoa num = String "-" digits)) /\
  LCD_PrintInt (-42) g = LCD_PrintString (Some "-42"%string) g /\
  transactions (events_of (LCD_PrintInt (-42) g))
    = transactions (events_of (LCD_PrintString (Some "-42"%string) g)) /\
  received (events_of (LCD_PrintInt (-42) g))
    = [Data 0x2D; Data 0x34; Data 0x32].
Proof.
  intros Hg.
  assert (Hfwd : forall num,
             LCD_PrintInt num g = LCD_PrintString (Some (itoa num)) g).
  { intros num. unfold LCD_PrintInt. rewrite (guard_open g _ Hg). reflexivity. }
  split.
  { intros num Hnum. split; [apply Hfwd|]. split; [apply itoa_value; exact Hnum|].
    intros Hneg. unfold itoa. apply Z.ltb_lt in Hneg. rewrite Hneg.
    eexists. reflexivity. }
  rewrite (Hfwd (-42)). change (itoa (-42)) with "-42"%string.
  split; [reflexivity|]. split; [reflexivity|].
  rewrite (LCD_PrintString_run _ g Hg).
  unfold events_of. cbn [snd]. rewrite app_nil_r.
  apply (received_frames g (map Data (c_bytes "-42"))). apply c_bytes_u8.
Qed.

Lemma PrintInt_minus_42_witness :
  let g := mkGlobals 0x20000400 0x4E in
  (forall num, is_i32 num ->
     LCD_PrintInt num g = LCD_PrintString (Some (itoa num)) g /\
     text_value (itoa num) = num /\
     (num < 0 -> exists digits, itoa num = String "-" digits)) /\
  LCD_PrintInt (-42) g = LCD_PrintString (Some "-42"%string) g /\
  transactions (events_of (LCD_PrintInt (-42) g))
    = transactions (events_of (LCD_PrintString (Some "-42"%string) g)) /\
  received (events_of (LCD_PrintInt (-42) g))
    = [Data 0x2D; Data 0x34; Data 0x32].
Proof.
  intros g. apply (PrintInt_minus_42 g).
  unfold initialized, NULL. simpl. lia.
Defined.

Lemma received_command (cmd : Z) (g : Globals) :
  is_u8 cmd ->
  received (events_of ((LCD_WriteCommand cmd ;; ret LCD_OK) g)) = [Command cmd].
Proof.
  intros H. rewrite command_then_ok. unfold events_of. cbn [snd].
  apply (received_frames g [Command cmd]). constructor; [exact H|constructor].
Qed.

(** C7: in the initialized state [LCD_Cursor s] and [LCD_Blink s] send the
    display-control command 0x08 with the display-on bit 0x04 set and the
    cursor bit 0x02, respectively the blink bit 0x01, set exactly when [s]
    is not zero; [LCD_Display 0] sends 0x08 alone and [LCD_Display s] for a
    nonzero [s] sends 0x08 | 0x04. *)
Theorem display_control_commands (s : Z) (g : Globals) :
  initialized g ->
  (status_of (LCD_Cursor s g) = LCD_OK /\
   received (events_of (LCD_Cursor s g))
     = [Command (Z.lor (Z.lor 0x08 0x04) (if s =? 0 then 0 else 0x02))]) /\
  (status_of (LCD_Blink s g) = LCD_OK /\
   received (events_of (LCD_Blink s g))
     = [Command (Z.lor (Z.lor 0x08 0x04) (if s =? 0 then 0 else 0x01))]) /\
  (status_of (LCD_Display s g) = LCD_OK /\
   received (events_of (LCD_Display s g))
     = [Command (if s =? 0 then 0x08 else Z.lor 0x08 0x04)]).
Proof.
  intros Hg. unfold LCD_Cursor, LCD_Blink, LCD_Display.
  rewrite !(guard_open g _ Hg).
  destruct (s =? 0); cbv zeta iota;
    (split; [|split]);
    (split; [reflexivity | apply received_command; unfold is_u8; cbn; lia]).
Qed.

Lemma display_control_commands_witness :
  let g := mkGlobals 0x20000400 0x4E in
  (status_of (LCD_Cursor 1 g) = LCD_OK /\
   received (events_of (LCD_Cursor 1 g)) = [Command 0x0E]) /\
  (status_of (LCD_Blink 1 g) = LCD_OK /\
   received (events_of (LCD_Blink 1 g)) = [Command 0x0D]) /\
  (status_of (LCD_Display 1 g) = LCD_OK /\
   received (events_of (LCD_Display 1 g)) = [Command 0x0C]).
Proof.
  intros g. apply (display_control_commands 1 g).
  unfold initialized, NULL. simpl. lia.
Defined.

(* ------------------------------------------------------------------------- *)
(** ** Initialization *)

Lemma LCD_Init_null (g : Globals) : LCD_Init NULL g = (LCD_ERROR, g, []).
Proof. reflexivity. Qed.

Lemma LCD_Init_valid (hi2c : Z) (g : Globals) :
  hi2c <> NULL ->
  status_of (LCD_Init hi2c g) = LCD_OK /\
  globals_of (LCD_Init hi2c g) = {| hi2c_lcd := hi2c; lcd_addr := lcd_addr g |}.
Proof.
  intros H. unfold LCD_Init. apply Z.eqb_neq in H. rewrite H.
  split; reflexivity.
Qed.

(** C8: [LCD_Init] with a null handle returns [LCD_ERROR] and changes
    nothing; if no handle was bound before, none is bound after, and every
    guarded operation still issues no bus write.  A following [LCD_Init]
    with a valid handle returns [LCD_OK] and binds that handle. *)
Theorem Init_null_then_valid
    (float : Type) (sprintf_fixed : Z -> float -> string)
    (hi2c : Z) (g : Globals) :
  hi2c <> NULL ->
  LCD_Init NULL g = (LCD_ERROR, g, []) /\
  (hi2c_lcd g = NULL ->
   hi2c_lcd (globals_of (LCD_Init NULL g)) = NULL /\
   forall o : Operation float,
     transactions
       (events_of (run_operation sprintf_fixed o (globals_of (LCD_Init NULL g))))
     = []) /\
  status_of (LCD_Init hi2c (globals_of (LCD_Init NULL g))) = LCD_OK /\
  hi2c_lcd (globals_of (LCD_Init hi2c (globals_of (LCD_Init NULL g)))) = hi2c /\
  initialized (globals_of (LCD_Init hi2c (globals_of (LCD_Init NULL g)))).
Proof.
  intros H. rewrite LCD_Init_null.
  change (globals_of (LCD_ERROR, g, [])) with g.
  split; [reflexivity|]. split.
  - intros Hg. split; [exact Hg|]. intros o.
    rewrite (run_operation_unbound float sprintf_fixed o g Hg). reflexivity.
  - destruct (LCD_Init_valid hi2c g H) as [Hs Hgl]. split; [exact Hs|].
    rewrite Hgl. unfold initialized. cbn [hi2c_lcd]. split; [reflexivity|exact H].
Qed.

Lemma Init_null_then_valid_witness :
  let call := run_operation (fun _ (_ : unit) => EmptyString) in
  LCD_Init NULL power_on = (LCD_ERROR, power_on, []) /\
  (hi2c_lcd power_on = NULL ->
   hi2c_lcd (globals_of (LCD_Init NULL power_on)) = NULL /\
   forall o : Operation unit,
     transactions (events_of (call o (globals_of (LCD_Init NULL power_on)))) = []) /\
  status_of (LCD_Init 0x20000400 (globals_of (LCD_Init NULL power_on))) = LCD_OK /\
  hi2c_lcd (globals_of (LCD_Init 0x20000400 (globals_of (LCD_Init NULL power_on))))
    = 0x20000400 /\
  initialized (globals_of (LCD_Init 0x20000400 (globals_of (LCD_Init NULL power_on)))).
Proof.
  apply (Init_null_then_valid unit (fun _ _ => EmptyString) 0x20000400 power_on).
  unfold NULL. lia.
Defined.

(* ------------------------------------------------------------------------- *)
(** ** What holds of every call *)

Lemma backlight_testbit (p : Z) : bits_set LCD_BACKLIGHT p = Z.testbit p 3.
Proof.
  unfold bits_set, LCD_BACKLIGHT. change 0x08 with (2 ^ 3).
  destruct (Z.testbit p 3) eqn:Hbit.
  - apply Z.eqb_eq. apply Z.bits_inj'. intros n Hn.
    rewrite Z.land_spec.
    destruct (Z.eq_dec n 3) as [->|Hne].
    + rewrite Hbit. reflexivity.
    + rewrite Z.pow2_bits_false by lia. apply andb_false_r.
  - apply Z.eqb_neq. intros H.
    assert (Z.testbit (Z.land p (2 ^ 3)) 3 = true) as Hc
      by (rewrite H; reflexivity).
    rewrite Z.land_spec, Hbit in Hc. discriminate Hc.
Qed.

Lemma testbit_u8_low (z n : Z) : n < 8 -> Z.testbit (u8 z) n = Z.testbit z n.
Proof.
  intros Hn. unfold u8. change 256 with (2 ^ 8).
  apply Z.mod_pow2_bits_low. lia.
Qed.

Lemma pulse_high_backlit (data rs : Z) : backlit (pulse_high data rs).
Proof.
  unfold backlit, pulse_high. rewrite backlight_testbit.
  rewrite testbit_u8_low, Z.lor_spec, testbit_u8_low, Z.lor_spec by lia.
  change (Z.testbit LCD_BACKLIGHT 3) with true.
  rewrite orb_true_r. reflexivity.
Qed.

Lemma pulse_low_backlit (data rs : Z) : backlit (pulse_low data rs).
Proof.
  pose proof (pulse_high_backlit data rs) as H.
  unfold backlit, pulse_low in *. rewrite backlight_testbit in *.
  rewrite testbit_u8_low, Z.land_spec, H, Z.lnot_spec by lia.
  reflexivity.
Qed.

Lemma sat_ret {A} (Q : A -> Prop) (a : A) : Q a -> Sat Q (ret a).
Proof. intros H g. split; [exact H|constructor]. Qed.

Lemma sat_bind {A B} (Q : B -> Prop) (m : M A) (k : A -> M B) :
  Sat any m -> (forall a, Sat Q (k a)) -> Sat Q (bind m k).
Proof.
  intros Hm Hk g. unfold bind.
  destruct (Hm g) as [_ Hm2]. destruct (m g) as [[a g1] t1].
  destruct (Hk a g1) as [Hk1 Hk2]. destruct (k a g1) as [[b g2] t2].
  unfold status_of, events_of in *. cbn [fst snd] in *.
  split; [exact Hk1|]. apply Forall_app. split; assumption.
Qed.

Lemma sat_if {A} (Q : A -> Prop) (c : bool) (m1 m2 : M A) :
  Sat Q m1 -> Sat Q m2 -> Sat Q (if c then m1 else m2).
Proof. destruct c; auto. Qed.

Lemma sat_globals : Sat any globals.
Proof. intros g. split; [exact I|constructor]. Qed.

Lemma sat_set_hi2c_lcd (p : Z) : Sat any (set_hi2c_lcd p).
Proof. intros g. split; [exact I|constructor]. Qed.

Lemma sat_set_lcd_addr (a : Z) : Sat any (set_lcd_addr a).
Proof. intros g. split; [exact I|constructor]. Qed.

Lemma sat_HAL_Delay (ms : Z) : Sat any (HAL_Delay ms).
Proof. intros g. split; [exact I|]. repeat constructor. Qed.

Lemma sat_WriteNibble (data rs : Z) : Sat any (LCD_WriteNibble data rs).
Proof.
  intros g. rewrite LCD_WriteNibble_run. split; [exact I|].
  unfold events_of, nibble_events. cbn [snd].
  repeat constructor; [apply pulse_high_backlit | apply pulse_low_backlit].
Qed.

Lemma sat_WriteByte (data rs : Z) : Sat any (LCD_WriteByte data rs).
Proof.
  unfold LCD_WriteByte. apply sat_bind; [|intros _]; apply sat_WriteNibble.
Qed.

Lemma sat_WriteCommand (cmd : Z) : Sat any (LCD_WriteCommand cmd).
Proof. apply sat_WriteByte. Qed.

Lemma sat_WriteData (data : Z) : Sat any (LCD_WriteData data).
Proof. apply sat_WriteByte. Qed.

Lemma sat_while_chars (str : string) : Sat any (while_chars str LCD_WriteData).
Proof.
  induction str as [|c str IH]; cbn [while_chars].
  - apply sat_ret. exact I.
  - apply sat_if; [apply sat_ret; exact I|].
    apply sat_bind; [apply sat_WriteData | intros _; exact IH].
Qed.

Lemma sat_for_each (idx : list nat) (body : nat -> M unit) :
  (forall i, Sat any (body i)) -> Sat any (for_each idx body).
Proof.
  intros Hbody. induction idx as [|i idx IH]; cbn [for_each].
  - apply sat_ret. exact I.
  - apply sat_bind; [apply Hbody | intros _; exact IH].
Qed.

Create HintDb lcd.

#[local] Hint Constructors returned : lcd.
#[local] Hint Extern 1 (any _) => exact I : lcd.

Ltac sat_leaf :=
  first
    [ apply sat_globals | apply sat_set_hi2c_lcd | apply sat_set_lcd_addr
    | apply sat_HAL_Delay | apply sat_WriteNibble | apply sat_WriteCommand
    | apply sat_WriteData | apply sat_while_chars
    | apply sat_ret; auto with lcd ].

Ltac sat_steps leaf :=
  repeat first
    [ leaf
    | apply sat_if
    | apply sat_for_each; intro
    | apply sat_bind; [| intro]
    | progress cbv zeta ].

Lemma sat_PrintString (str : option string) : Sat returned (LCD_PrintString str).
Proof. unfold LCD_PrintString. destruct str; sat_steps sat_leaf. Qed.

Lemma sat_run (float : Type) (sprintf_fixed : Z -> float -> string)
    (c : Call float) :
  Sat returned (run sprintf_fixed c).
Proof.
  destruct c as [hi2c|address|o]; [| |destruct o]; cbn [run run_operation];
    unfold LCD_Init, LCD_SetAddress, LCD_Clear, LCD_SetCursor, LCD_PrintInt,
           LCD_PrintFloat, LCD_CreateChar, LCD_WriteChar, LCD_Display,
           LCD_Cursor, LCD_Blink, LCD_ScrollLeft, LCD_ScrollRight, LCD_Home;
    sat_steps ltac:(first [apply sat_PrintString | sat_leaf]).
Qed.

Lemma packets_backlit (t : list Event) :
  Forall event_backlit t -> Forall backlit (packets t).
Proof.
  induction 1 as [|[h a d w|ms] t He _ IH]; cbn [packets]; [constructor| |exact IH].
  apply Forall_app. split; [exact He|exact IH].
Qed.

(** C9: whatever public function is called, with whatever arguments and in
    whatever state, every byte it hands to the bus has the backlight bit
    0x08 set. *)
Theorem every_packet_has_backlight
    (float : Type) (sprintf_fixed : Z -> float -> string)
    (c : Call float) (g : Globals) :
  Forall (fun p => Z.land p LCD_BACKLIGHT = LCD_BACKLIGHT)
         (packets (events_of (run sprintf_fixed c g))).
Proof.
  destruct (sat_run float sprintf_fixed c g) as [_ H].
  apply packets_backlit in H.
  eapply Forall_impl; [|exact H].
  intros p Hp. apply Z.eqb_eq. exact Hp.
Qed.

(** C10: no public function returns [LCD_BUSY] or [LCD_TIMEOUT]: the status
    is always [LCD_OK], [LCD_ERROR] or [LCD_NOT_INITIALIZED]. *)
Theorem status_is_ok_error_or_not_initialized
    (float : Type) (sprintf_fixed : Z -> float -> string)
    (c : Call float) (g : Globals) :
  let s := status_of (run sprintf_fixed c g) in
  (s = LCD_OK \/ s = LCD_ERROR \/ s = LCD_NOT_INITIALIZED) /\
  s <> LCD_BUSY /\ s <> LCD_TIMEOUT.
Proof.
  destruct (sat_run float sprintf_fixed c g) as [H _].
  cbv zeta. destruct H; repeat split; auto; discriminate.
Qed.

(* ------------------------------------------------------------------------- *)
(** ** Trace properties kept by every call *)

Section TraceProperty.

Variable T : Globals -> list Event -> Prop.
Hypothesis T_nil : forall g, T g [].
Hypothesis T_app : forall g t1 t2, T g t1 -> T g t2 -> T g (t1 ++ t2).
Hypothesis T_delay : forall g ms, 1 <= ms -> T g [Delay ms].
Hypothesis T_nibble :
  forall g data rs, Z.land data 0x0F = 0 -> T g (nibble_events g data rs).

Lemma keeps_ret {A} (a : A) : Keeps T (ret a).
Proof. intros g. split; [reflexivity|apply T_nil]. Qed.

Lemma keeps_bind {A B} (m : M A) (k : A -> M B) :
  Keeps T m -> (forall a, Keeps T (k a)) -> Keeps T (bind m k).
Proof.
  intros Hm Hk g. unfold bind.
  destruct (Hm g) as [Hm1 Hm2]. destruct (m g) as [[a g1] t1].
  unfold globals_of, events_of in Hm1, Hm2. cbn [fst snd] in Hm1, Hm2. subst g1.
  destruct (Hk a g) as [Hk1 Hk2]. destruct (k a g) as [[b g2] t2].
  unfold globals_of, events_of in *. cbn [fst snd] in *.
  split; [exact Hk1|apply T_app; assumption].
Qed.

Lemma keeps_if {A} (c : bool) (m1 m2 : M A) :
  Keeps T m1 -> Keeps T m2 -> Keeps T (if c then m1 else m2).
Proof. destruct c; auto. Qed.

Lemma keeps_globals : Keeps T globals.
Proof. intros g. split; [reflexivity|apply T_nil]. Qed.

Lemma keeps_HAL_Delay (ms : Z) : 1 <= ms -> Keeps T (HAL_Delay ms).
Proof. intros H g. split; [reflexivity|apply T_delay; exact H]. Qed.

Lemma keeps_WriteNibble (data rs : Z) :
  Z.land data 0x0F = 0 -> Keeps T (LCD_WriteNibble data rs).
Proof.
  intros H g. rewrite LCD_WriteNibble_run.
  split; [reflexivity|apply T_nibble; exact H].
Qed.

Lemma high_nibble_only (x : Z) : Z.land (u8 (Z.land x 0xF0)) 0x0F = 0.
Proof.
  unfold u8. change 256 with (2 ^ 8). rewrite <- Z.land_ones by lia.
  rewrite <- !Z.land_assoc. change (Z.land 0xF0 (Z.land (Z.ones 8) 0x0F)) with 0.
  apply Z.land_0_r.
Qed.

Lemma keeps_WriteByte (data rs : Z) : Keeps T (LCD_WriteByte data rs).
Proof.
  unfold LCD_WriteByte.
  apply keeps_bind; [|intros _]; apply keeps_WriteNibble; apply high_nibble_only.
Qed.

Lemma keeps_WriteCommand (cmd : Z) : Keeps T (LCD_WriteCommand cmd).
Proof. apply keeps_WriteByte. Qed.

Lemma keeps_WriteData (data : Z) : Keeps T (LCD_WriteData data).
Proof. apply keeps_WriteByte. Qed.

Lemma keeps_while_chars (str : string) : Keeps T (while_chars str LCD_WriteData).
Proof.
  induction str as [|c str IH]; cbn [while_chars].
  - apply keeps_ret.
  - apply keeps_if; [apply keeps_ret|].
    apply keeps_bind; [apply keeps_WriteData | intros _; exact IH].
Qed.

Lemma keeps_for_each (idx : list nat) (body : nat -> M unit) :
  (forall i, Keeps T (body i)) -> Keeps T (for_each idx body).
Proof.
  intros Hbody. induction idx as [|i idx IH]; cbn [for_each].
  - apply keeps_ret.
  - apply keeps_bind; [apply Hbody | intros _; exact IH].
Qed.

Ltac keeps_leaf :=
  first
    [ apply keeps_globals | apply keeps_HAL_Delay; lia
    | apply keeps_WriteNibble; reflexivity
    | apply keeps_WriteCommand | apply keeps_WriteData
    | apply keeps_while_chars | apply keeps_ret ].

Ltac keeps_steps leaf :=
  repeat first
    [ leaf
    | apply keeps_if
    | apply keeps_for_each; intro
    | apply keeps_bind; [| intro]
    | progress cbv zeta ].

Lemma keeps_PrintString (str : option string) : Keeps T (LCD_PrintString str).
Proof. unfold LCD_PrintString. destruct str; keeps_steps keeps_leaf. Qed.

Lemma keeps_operation (float : Type) (sprintf_fixed : Z -> float -> string)
    (o : Operation float) :
  Keeps T (run_operation sprintf_fixed o).
Proof.
  destruct o; cbn [run_operation];
    unfold LCD_Clear, LCD_SetCursor, LCD_PrintInt,
           LCD_PrintFloat, LCD_CreateChar, LCD_WriteChar, LCD_Display,
           LCD_Cursor, LCD_Blink, LCD_ScrollLeft, LCD_ScrollRight, LCD_Home;
    keeps_steps ltac:(first [apply keeps_PrintString | keeps_leaf]).
Qed.

(** [LCD_Init] with a valid handle is the rest of its body run from the
    globals with that handle stored. *)
Lemma bind_set_hi2c_lcd {B} (p : Z) (k : M B) (g : Globals) :
  (set_hi2c_lcd p ;; k) g = k {| hi2c_lcd := p; lcd_addr := lcd_addr g |}.
Proof.
  unfold bind, set_hi2c_lcd.
  destruct (k {| hi2c_lcd := p; lcd_addr := lcd_addr g |}) as [[b g2] t2].
  reflexivity.
Qed.

Lemma keeps_Init_valid (hi2c : Z) (g : Globals) :
  hi2c <> NULL ->
  T {| hi2c_lcd := hi2c; lcd_addr := lcd_addr g |} (events_of (LCD_Init hi2c g)).
Proof.
  intros H. unfold LCD_Init. apply Z.eqb_neq in H. rewrite H.
  rewrite bind_set_hi2c_lcd.
  match goal with |- T ?g' (events_of (?k ?g')) =>
    assert (Keeps T k) as Hk by keeps_steps keeps_leaf; apply (Hk g') end.
Qed.

(** The events of any public call satisfy [T] at the globals the call
    leaves. *)
Lemma keeps_run (float : Type) (sprintf_fixed : Z -> float -> string)
    (c : Call float) (g : Globals) :
  T (globals_of (run sprintf_fixed c g)) (events_of (run sprintf_fixed c g)).
Proof.
  destruct c as [hi2c|address|o]; cbn [run].
  - destruct (Z.eq_dec hi2c NULL) as [->|Hh].
    + rewrite LCD_Init_null. apply T_nil.
    + destruct (LCD_Init_valid hi2c g Hh) as [_ ->].
      apply keeps_Init_valid. exact Hh.
  - apply T_nil.
  - destruct (keeps_operation float sprintf_fixed o g) as [-> H]. exact H.
Qed.

End TraceProperty.

(* ------------------------------------------------------------------------- *)
(** ** What every call keeps *)

Lemma targets_nibble (g : Globals) (data rs : Z) :
  targets g (nibble_events g data rs).
Proof. unfold targets, nibble_events. repeat constructor. Qed.

Lemma run_targets (float : Type) (sprintf_fixed : Z -> float -> string)
    (c : Call float) (g : Globals) :
  targets (globals_of (run sprintf_fixed c g)) (events_of (run sprintf_fixed c g)).
Proof.
  apply (keeps_run targets).
  - intros g0. constructor.
  - intros g0 t1 t2 H1 H2. apply Forall_app. split; assumption.
  - intros g0 ms _. repeat constructor.
  - intros g0 data rs _. apply targets_nibble.
Qed.

Lemma operation_keeps_globals (float : Type) (sprintf_fixed : Z -> float -> string)
    (o : Operation float) (g : Globals) :
  globals_of (run_operation sprintf_fixed o g) = g.
Proof.
  apply (keeps_operation (fun _ _ => True)); auto.
Qed.

(** X1: a call of [HAL_I2C_Master_Transmit] made by any public function is
    never given a null handle: it gets the handle and the address that the
    globals hold when the function returns, one byte, and the timeout 10. *)
Theorem transmit_never_on_null_handle
    (float : Type) (sprintf_fixed : Z -> float -> string)
    (c : Call float) (g : Globals) (hi2c DevAddress : Z) (pData : list Z)
    (Timeout : Z) :
  In (I2C_Transmit hi2c DevAddress pData Timeout)
     (events_of (run sprintf_fixed c g)) ->
  hi2c <> NULL /\
  hi2c = hi2c_lcd (globals_of (run sprintf_fixed c g)) /\
  DevAddress = lcd_addr (globals_of (run sprintf_fixed c g)) /\
  List.length pData = 1%nat /\ Timeout = 10.
Proof.
  intros Hin.
  pose proof (run_targets float sprintf_fixed c g) as Ht.
  unfold targets in Ht. rewrite Forall_forall in Ht.
  destruct (Ht _ Hin) as (Hh & Ha & Hd & Hw).
  split; [|repeat split; assumption].
  rewrite Hh. clear Ht Hh Ha Hd Hw.
  destruct c as [h|address|o]; cbn [run] in *.
  - destruct (Z.eq_dec h NULL) as [->|Hne].
    + rewrite LCD_Init_null in Hin. destruct Hin.
    + destruct (LCD_Init_valid h g Hne) as [_ ->]. exact Hne.
  - destruct Hin.
  - destruct (Z.eq_dec (hi2c_lcd g) NULL) as [Hnull|Hne].
    + rewrite (run_operation_unbound float sprintf_fixed o g Hnull) in Hin.
      destruct Hin.
    + rewrite operation_keeps_globals. exact Hne.
Qed.

Lemma transmit_never_on_null_handle_witness :
  let g := mkGlobals 0x20000400 0x4E in
  let call := run (fun _ (_ : unit) => EmptyString) (Op Clear) in
  0x20000400 <> NULL /\
  0x20000400 = hi2c_lcd (globals_of (call g)) /\
  0x4E = lcd_addr (globals_of (call g)) /\
  List.length [0x0C] = 1%nat /\ 10 = 10.
Proof.
  intros g call.
  apply (transmit_never_on_null_handle unit (fun _ _ => EmptyString)
           (Op Clear) g 0x20000400 0x4E [0x0C] 10).
  left. reflexivity.
Defined.

Lemma RW_clear_testbit (p : Z) : bits_set LCD_RW p = Z.testbit p 1.
Proof.
  unfold bits_set, LCD_RW. change 0x02 with (2 ^ 1).
  destruct (Z.testbit p 1) eqn:Hbit.
  - apply Z.eqb_eq. apply Z.bits_inj'. intros n Hn.
    rewrite Z.land_spec.
    destruct (Z.eq_dec n 1) as [->|Hne].
    + rewrite Hbit. reflexivity.
    + rewrite Z.pow2_bits_false by lia. apply andb_false_r.
  - apply Z.eqb_neq. intros H.
    assert (Z.testbit (Z.land p (2 ^ 1)) 1 = true) as Hc
      by (rewrite H; reflexivity).
    rewrite Z.land_spec, Hbit in Hc. discriminate Hc.
Qed.

Lemma low_nibble_clear_bit (data n : Z) :
  Z.land data 0x0F = 0 -> 0 <= n < 4 -> Z.testbit data n = false.
Proof.
  intros H Hn.
  assert (Z.testbit (Z.land data 0x0F) n = false) as Hb
    by (rewrite H; apply Z.bits_0).
  rewrite Z.land_spec in Hb.
  assert (Z.testbit 0x0F n = true) as H15.
  { assert (n = 0 \/ n = 1 \/ n = 2 \/ n = 3) as [->|[->|[->| ->]]] by lia;
      reflexivity. }
  rewrite H15, andb_true_r in Hb. exact Hb.
Qed.

Lemma pulse_high_RW (data rs : Z) :
  Z.land data 0x0F = 0 -> bits_set LCD_RW (pulse_high data rs) = false.
Proof.
  intros H. rewrite RW_clear_testbit. unfold pulse_high.
  rewrite testbit_u8_low, Z.lor_spec, testbit_u8_low, Z.lor_spec by lia.
  change (Z.testbit LCD_BACKLIGHT 1) with false.
  change (Z.testbit LCD_EN 1) with false.
  rewrite !orb_false_r.
  destruct (rs =? 0).
  - apply low_nibble_clear_bit; [exact H|lia].
  - rewrite testbit_u8_low, Z.lor_spec by lia.
    change (Z.testbit LCD_RS 1) with false. rewrite orb_false_r.
    apply low_nibble_clear_bit; [exact H|lia].
Qed.

Lemma pulse_low_RW (data rs : Z) :
  Z.land data 0x0F = 0 -> bits_set LCD_RW (pulse_low data rs) = false.
Proof.
  intros H. pose proof (pulse_high_RW data rs H) as Hh.
  rewrite RW_clear_testbit in *. unfold pulse_low.
  rewrite testbit_u8_low, Z.land_spec, Hh by lia. reflexivity.
Qed.

Lemma u8_is_u8 (z : Z) : is_u8 (u8 z).
Proof. unfold is_u8, u8. apply Z.mod_pos_bound. lia. Qed.

Lemma run_write_only (float : Type) (sprintf_fixed : Z -> float -> string)
    (c : Call float) (g : Globals) :
  write_only (events_of (run sprintf_fixed c g)).
Proof.
  apply (keeps_run (fun _ => write_only)).
  - intros _. constructor.
  - intros _ t1 t2 H1 H2. unfold write_only in *.
    rewrite packets_app. apply Forall_app. split; assumption.
  - intros _ ms _. constructor.
  - intros g0 data rs Hd. unfold write_only, nibble_events. cbn [packets app].
    repeat constructor;
      first [ apply u8_is_u8 | apply pulse_high_RW; exact Hd
            | apply pulse_low_RW; exact Hd ].
Qed.

(** X2: every byte that any public function hands to the bus is an 8-bit
    value with the R/W pin (0x02) low: the driver only ever writes to the
    controller. *)
Theorem every_packet_is_a_write
    (float : Type) (sprintf_fixed : Z -> float -> string)
    (c : Call float) (g : Globals) :
  Forall (fun p => 0 <= p < 256 /\ Z.land p LCD_RW <> LCD_RW)
         (packets (events_of (run sprintf_fixed c g))).
Proof.
  pose proof (run_write_only float sprintf_fixed c g) as H.
  eapply Forall_impl; [|exact H].
  intros p [Hp Hrw]. split; [exact Hp|].
  apply Z.eqb_neq. exact Hrw.
Qed.

Lemma paced_app (t1 t2 : list Event) :
  paced t1 -> paced t2 -> paced (t1 ++ t2).
Proof.
  intros H1 H2. induction t1 as [|e t1 IH]; [exact H2|].
  destruct e as [h a d w|ms].
  - destruct t1 as [|[h' a' d' w'|ms'] t1]; cbn [paced] in H1; try contradiction.
    destruct H1 as [Hms Hrest].
    change (paced (I2C_Transmit h a d w :: Delay ms' :: (t1 ++ t2))).
    cbn [paced]. split; [exact Hms|].
    apply (IH Hrest).
  - cbn [paced app] in *. apply IH. exact H1.
Qed.

Lemma run_paced (float : Type) (sprintf_fixed : Z -> float -> string)
    (c : Call float) (g : Globals) :
  paced (events_of (run sprintf_fixed c g)).
Proof.
  apply (keeps_run (fun _ => paced)).
  - intros _. exact I.
  - intros _ t1 t2. apply paced_app.
  - intros _ ms _. exact I.
  - intros g0 data rs _. cbn. lia.
Qed.

(** X3: in the events of any public function every bus write is directly
    followed by a [HAL_Delay] of at least 1 ms, so two bus writes are never
    back to back. *)
Theorem every_transmit_is_followed_by_a_delay
    (float : Type) (sprintf_fixed : Z -> float -> string)
    (c : Call float) (g : Globals) :
  paced (events_of (run sprintf_fixed c g)).
Proof. apply run_paced. Qed.

(* ------------------------------------------------------------------------- *)
(** ** The two globals *)

(** X4: the handle is written only by [LCD_Init] with a non-null argument
    and the address only by [LCD_SetAddress]; every other public call, and
    [LCD_Init] with a null argument, leaves both globals as they were. *)
Theorem globals_after_call
    (float : Type) (sprintf_fixed : Z -> float -> string)
    (c : Call float) (g : Globals) :
  globals_of (run sprintf_fixed c g)
  = match c with
    | Init hi2c =>
        if hi2c =? NULL then g
        else {| hi2c_lcd := hi2c; lcd_addr := lcd_addr g |}
    | SetAddress address => {| hi2c_lcd := hi2c_lcd g; lcd_addr := address |}
    | Op _ => g
    end.
Proof.
  destruct c as [hi2c|address|o]; cbn [run].
  - destruct (Z.eqb_spec hi2c NULL) as [->|Hne].
    + rewrite LCD_Init_null. reflexivity.
    + apply (LCD_Init_valid hi2c g Hne).
  - reflexivity.
  - apply operation_keeps_globals.
Qed.

Lemma call_keeps_initialized
    (float : Type) (sprintf_fixed : Z -> float -> string)
    (c : Call float) (g : Globals) :
  initialized g -> initialized (globals_of (run sprintf_fixed c g)).
Proof.
  intros Hg. destruct c as [hi2c|address|o]; cbn [run].
  - destruct (Z.eq_dec hi2c NULL) as [->|Hne].
    + rewrite LCD_Init_null. exact Hg.
    + destruct (LCD_Init_valid hi2c g Hne) as [_ ->]. exact Hne.
  - exact Hg.
  - rewrite operation_keeps_globals. exact Hg.
Qed.

(** X5: once a handle is bound it stays bound: no series of public calls,
    not even [LCD_Init] with a null argument, brings the driver back to the
    uninitialized state. *)
Theorem initialized_for_good
    (float : Type) (sprintf_fixed : Z -> float -> string)
    (cs : list (Call float)) (g : Globals) :
  initialized g -> initialized (after_calls sprintf_fixed cs g).
Proof.
  revert g. induction cs as [|c cs IH]; intros g Hg; [exact Hg|].
  cbn [after_calls fold_left]. apply IH.
  apply call_keeps_initialized. exact Hg.
Qed.

Lemma initialized_for_good_witness :
  initialized
    (after_calls (fun _ (_ : unit) => EmptyString)
       [Init NULL; SetAddress 0x7E; Op (PrintString None); Op Clear]
       (mkGlobals 0x20000400 0x4E)).
Proof.
  apply (initialized_for_good unit).
  unfold initialized, NULL. simpl. lia.
Defined.

(** X6: [LCD_SetAddress] needs no bound handle: in any state it returns
    [LCD_OK] without touching the bus, and from then on every transmit of
    every guarded operation goes to the new address. *)
Theorem SetAddress_redirects
    (float : Type) (sprintf_fixed : Z -> float -> string)
    (address : Z) (o : Operation float) (g : Globals) :
  LCD_SetAddress address g
    = (LCD_OK, {| hi2c_lcd := hi2c_lcd g; lcd_addr := address |}, []) /\
  Forall (fun e => match e with
                   | I2C_Transmit _ DevAddress _ _ => DevAddress = address
                   | Delay _ => True
                   end)
    (events_of (run_operation sprintf_fixed o
                  (globals_of (LCD_SetAddress address g)))).
Proof.
  split; [reflexivity|].
  change (globals_of (LCD_SetAddress address g))
    with {| hi2c_lcd := hi2c_lcd g; lcd_addr := address |}.
  pose proof (run_targets float sprintf_fixed (Op o)
                {| hi2c_lcd := hi2c_lcd g; lcd_addr := address |}) as H.
  cbn [run] in H. rewrite operation_keeps_globals in H.
  eapply Forall_impl; [|exact H].
  intros [h a d w|ms] He; [|exact I].
  destruct He as (_ & Ha & _). exact Ha.
Qed.

(** X7: [LCD_Init] with a valid handle writes to that handle from its first
    transmit on, whatever handle was bound before, and keeps the address. *)
Theorem Init_uses_new_handle (hi2c : Z) (g : Globals) :
  hi2c <> NULL ->
  Forall (fun e => match e with
                   | I2C_Transmit h DevAddress _ _ =>
                       h = hi2c /\ DevAddress = lcd_addr g
                   | Delay _ => True
                   end)
    (events_of (LCD_Init hi2c g)).
Proof.
  intros H.
  pose proof (run_targets unit (fun _ _ => EmptyString) (Init hi2c) g) as Ht.
  cbn [run] in Ht. destruct (LCD_Init_valid hi2c g H) as [_ Hg].
  rewrite Hg in Ht.
  eapply Forall_impl; [|exact Ht].
  intros [h a d w|ms] He; [|exact I].
  destruct He as (Hh & Ha & _). split; assumption.
Qed.

Lemma Init_uses_new_handle_witness :
  Forall (fun e => match e with
                   | I2C_Transmit h DevAddress _ _ =>
                       h = 0x20000800 /\ DevAddress = lcd_addr (mkGlobals 0x20000400 0x4E)
                   | Delay _ => True
                   end)
    (events_of (LCD_Init 0x20000800 (mkGlobals 0x20000400 0x4E))).
Proof.
  apply (Init_uses_new_handle 0x20000800 (mkGlobals 0x20000400 0x4E)).
  unfold NULL. lia.
Defined.

(* ------------------------------------------------------------------------- *)
(** ** The bring-up sequence *)

(** X8: [LCD_Init] with a valid handle first waits 50 ms, then gives the
    controller the nibbles 3, 3, 3, 2 and the commands 0x28, 0x08, 0x01,
    0x06, 0x0C, as fourteen nibble-transfers in 28 bus writes, and spends
    92 ms in [HAL_Delay] in all. *)
Theorem Init_sequence (hi2c : Z) (g : Globals) :
  hi2c <> NULL ->
  (exists rest, events_of (LCD_Init hi2c g) = Delay 50 :: rest) /\
  map strip_control (nibble_transfers (packets (events_of (LCD_Init hi2c g))))
    = [0x30; 0x30; 0x30; 0x20;
       0x20; 0x80;  0x00; 0x80;  0x00; 0x10;  0x00; 0x60;  0x00; 0xC0] /\
  List.length (transactions (events_of (LCD_Init hi2c g))) = 28%nat /\
  delay_ms (events_of (LCD_Init hi2c g)) = 92.
Proof.
  intros H. unfold LCD_Init. apply Z.eqb_neq in H. rewrite H.
  rewrite bind_set_hi2c_lcd.
  split; [eexists; reflexivity|].
  split; [|split]; vm_compute; reflexivity.
Qed.

Lemma Init_sequence_witness :
  (exists rest, events_of (LCD_Init 0x20000400 power_on) = Delay 50 :: rest) /\
  map strip_control
      (nibble_transfers (packets (events_of (LCD_Init 0x20000400 power_on))))
    = [0x30; 0x30; 0x30; 0x20;
       0x20; 0x80;  0x00; 0x80;  0x00; 0x10;  0x00; 0x60;  0x00; 0xC0] /\
  List.length (transactions (events_of (LCD_Init 0x20000400 power_on))) = 28%nat /\
  delay_ms (events_of (LCD_Init 0x20000400 power_on)) = 92.
Proof. apply (Init_sequence 0x20000400 power_on). unfold NULL. lia. Defined.

(* ------------------------------------------------------------------------- *)
(** ** Single commands *)

Lemma received_app_delay (t : list Event) (ms : Z) (t' : list Event) :
  packets t' = [] -> received (t ++ Delay ms :: t') = received t.
Proof.
  intros H. unfold received. rewrite packets_app. cbn [packets].
  rewrite H, app_nil_r. reflexivity.
Qed.

Lemma delay_ms_app (t1 t2 : list Event) :
  delay_ms (t1 ++ t2) = delay_ms t1 + delay_ms t2.
Proof.
  induction t1 as [|[h a d w|ms] t1 IH]; cbn [delay_ms app]; lia.
Qed.

Lemma delay_ms_frames (g : Globals) (ws : list Written) :
  delay_ms (flat_map (write_events g) ws) = 4 * Z.of_nat (List.length ws).
Proof.
  induction ws as [|w ws IH]; [reflexivity|].
  cbn [flat_map]. rewrite delay_ms_app, IH.
  replace (delay_ms (write_events g w)) with 4 by (destruct w; reflexivity).
  cbn [List.length]. lia.
Qed.

(** X9: in the initialized state [LCD_Clear] sends the one command 0x01 and
    [LCD_Home] the one command 0x02, each followed by a further wait of
    2 ms before the function returns [LCD_OK]. *)
Theorem Clear_and_Home (g : Globals) :
  initialized g ->
  (LCD_Clear g = (LCD_OK, g, events_of (LCD_WriteCommand 0x01 g) ++ [Delay 2]) /\
   received (events_of (LCD_Clear g)) = [Command 0x01]) /\
  (LCD_Home g = (LCD_OK, g, events_of (LCD_WriteCommand 0x02 g) ++ [Delay 2]) /\
   received (events_of (LCD_Home g)) = [Command 0x02]).
Proof.
  intros Hg. unfold LCD_Clear, LCD_Home. rewrite !(guard_open g _ Hg).
  split; (split; [reflexivity|]);
    (match goal with |- received (events_of (?m g)) = [Command ?c] =>
       change (events_of (m g)) with (write_events g (Command c) ++ [Delay 2])
     end);
    rewrite received_app_delay by reflexivity;
    apply received_one; unfold is_u8; cbn; lia.
Qed.

Lemma Clear_and_Home_witness :
  let g := mkGlobals 0x20000400 0x4E in
  (LCD_Clear g = (LCD_OK, g, events_of (LCD_WriteCommand 0x01 g) ++ [Delay 2]) /\
   received (events_of (LCD_Clear g)) = [Command 0x01]) /\
  (LCD_Home g = (LCD_OK, g, events_of (LCD_WriteCommand 0x02 g) ++ [Delay 2]) /\
   received (events_of (LCD_Home g)) = [Command 0x02]).
Proof.
  intros g. apply (Clear_and_Home g). unfold initialized, NULL. simpl. lia.
Defined.

(** X10: in the initialized state [LCD_ScrollLeft] sends the one command
    0x18 and [LCD_ScrollRight] the one command 0x1C (cursor/display shift
    with the display-move bit, so the whole display moves), and both return
    [LCD_OK]. *)
Theorem Scroll_commands (g : Globals) :
  initialized g ->
  (status_of (LCD_ScrollLeft g) = LCD_OK /\
   received (events_of (LCD_ScrollLeft g)) = [Command 0x18]) /\
  (status_of (LCD_ScrollRight g) = LCD_OK /\
   received (events_of (LCD_ScrollRight g)) = [Command 0x1C]) /\
  bits_set LCD_DISPLAY_MOVE 0x18 = true /\ bits_set LCD_DISPLAY_MOVE 0x1C = true.
Proof.
  intros Hg. unfold LCD_ScrollLeft, LCD_ScrollRight. rewrite !(guard_open g _ Hg).
  split; [|split; [|split; reflexivity]];
    (split; [reflexivity | apply received_command; unfold is_u8; cbn; lia]).
Qed.

Lemma Scroll_commands_witness :
  let g := mkGlobals 0x20000400 0x4E in
  (status_of (LCD_ScrollLeft g) = LCD_OK /\
   received (events_of (LCD_ScrollLeft g)) = [Command 0x18]) /\
  (status_of (LCD_ScrollRight g) = LCD_OK /\
   received (events_of (LCD_ScrollRight g)) = [Command 0x1C]) /\
  bits_set LCD_DISPLAY_MOVE 0x18 = true /\ bits_set LCD_DISPLAY_MOVE 0x1C = true.
Proof.
  intros g. apply (Scroll_commands g). unfold initialized, NULL. simpl. lia.
Defined.

(** X11: in the initialized state [LCD_WriteChar] refuses a slot above 7
    with [LCD_ERROR] and no HAL call, and for a slot 0..7 sends that slot
    number as one data byte and returns [LCD_OK]. *)
Theorem WriteChar_slots (location : Z) (g : Globals) :
  initialized g -> is_u8 location ->
  (7 < location -> LCD_WriteChar location g = (LCD_ERROR, g, [])) /\
  (location <= 7 ->
   status_of (LCD_WriteChar location g) = LCD_OK /\
   received (events_of (LCD_WriteChar location g)) = [Data location]).
Proof.
  intros Hg Hloc. unfold LCD_WriteChar. rewrite (guard_open g _ Hg).
  split; intros H.
  - assert ((location >? 7) = true) as -> by (apply Z.gtb_lt; lia). reflexivity.
  - assert ((location >? 7) = false) as ->.
    { destruct (Z.gtb_spec location 7); [lia|reflexivity]. }
    split; [reflexivity|].
    change (events_of ((LCD_WriteData location;; ret LCD_OK) g))
      with (flat_map (write_events g) [Data location]).
    apply received_frames. constructor; [exact Hloc|constructor].
Qed.

Lemma WriteChar_slots_witness :
  let g := mkGlobals 0x20000400 0x4E in
  (7 < 5 -> LCD_WriteChar 5 g = (LCD_ERROR, g, [])) /\
  (5 <= 7 ->
   status_of (LCD_WriteChar 5 g) = LCD_OK /\
   received (events_of (LCD_WriteChar 5 g)) = [Data 5]).
Proof.
  intros g. apply (WriteChar_slots 5 g); unfold initialized, is_u8, NULL; simpl; lia.
Defined.

(* ------------------------------------------------------------------------- *)
(** ** Printing text *)

Lemma c_bytes_nul (s1 s2 : string) :
  c_bytes (s1 ++ String zero s2)%string = c_bytes s1.
Proof.
  induction s1 as [|c s1 IH]; [reflexivity|].
  cbn [append c_bytes]. destruct (Z.of_N (N_of_ascii c) =? 0); [reflexivity|].
  rewrite IH. reflexivity.
Qed.

Lemma c_bytes_app (s1 s2 : string) :
  ~ In zero (list_ascii_of_string s1) ->
  c_bytes (s1 ++ s2)%string = c_bytes s1 ++ c_bytes s2.
Proof.
  induction s1 as [|c s1 IH]; intros Hz; [reflexivity|].
  cbn [list_ascii_of_string In] in Hz.
  cbn [append c_bytes].
  destruct (Z.eqb_spec (Z.of_N (N_of_ascii c)) 0) as [Hc|Hc].
  - exfalso. apply Hz. left.
    rewrite <- (ascii_N_embedding c).
    replace (N_of_ascii c) with 0%N by lia. reflexivity.
  - cbn [app]. f_equal. apply IH. intros Hin. apply Hz. right. exact Hin.
Qed.

Lemma PrintString_same_text (s1 s2 : string) (g : Globals) :
  c_bytes s1 = c_bytes s2 ->
  LCD_PrintString (Some s1) g = LCD_PrintString (Some s2) g.
Proof.
  intros H. destruct (Z.eq_dec (hi2c_lcd g) NULL) as [Hnull|Hne].
  - unfold LCD_PrintString. rewrite !(guard_closed g _ Hnull). reflexivity.
  - rewrite !(LCD_PrintString_run _ g Hne), H. reflexivity.
Qed.

(** X12: in the initialized state [LCD_PrintString] refuses a null pointer
    with [LCD_ERROR] and no HAL call; for a text it returns [LCD_OK] after
    sending the characters before the first NUL, in order, as data bytes,
    at four bus writes and 4 ms of delay per character; the empty text
    sends nothing. *)
Theorem PrintString_text (str : string) (g : Globals) :
  initialized g ->
  LCD_PrintString None g = (LCD_ERROR, g, []) /\
  LCD_PrintString (Some EmptyString) g = (LCD_OK, g, []) /\
  status_of (LCD_PrintString (Some str) g) = LCD_OK /\
  globals_of (LCD_PrintString (Some str) g) = g /\
  received (events_of (LCD_PrintString (Some str) g)) = map Data (c_bytes str) /\
  List.length (transactions (events_of (LCD_PrintString (Some str) g)))
    = (4 * List.length (c_bytes str))%nat /\
  delay_ms (events_of (LCD_PrintString (Some str) g))
    = 4 * Z.of_nat (List.length (c_bytes str)).
Proof.
  intros Hg.
  split. { unfold LCD_PrintString. rewrite (guard_open g _ Hg). reflexivity. }
  split. { unfold LCD_PrintString. rewrite (guard_open g _ Hg). reflexivity. }
  rewrite (LCD_PrintString_run str g Hg).
  unfold status_of, globals_of, events_of. cbn [fst snd]. rewrite app_nil_r.
  split; [reflexivity|]. split; [reflexivity|]. split; [|split].
  - apply received_frames. apply c_bytes_u8.
  - rewrite transactions_frames, length_map. reflexivity.
  - rewrite delay_ms_frames, length_map. reflexivity.
Qed.

Lemma PrintString_text_witness :
  let g := mkGlobals 0x20000400 0x4E in
  let str := "Hi!"%string in
  LCD_PrintString None g = (LCD_ERROR, g, []) /\
  LCD_PrintString (Some EmptyString) g = (LCD_OK, g, []) /\
  status_of (LCD_PrintString (Some str) g) = LCD_OK /\
  globals_of (LCD_PrintString (Some str) g) = g /\
  received (events_of (LCD_PrintString (Some str) g)) = map Data (c_bytes str) /\
  List.length (transactions (events_of (LCD_PrintString (Some str) g)))
    = (4 * List.length (c_bytes str))%nat /\
  delay_ms (events_of (LCD_PrintString (Some str) g))
    = 4 * Z.of_nat (List.length (c_bytes str)).
Proof.
  intros g str. apply (PrintString_text str g).
  unfold initialized, NULL. simpl. lia.
Defined.

(** X13: [LCD_PrintString] stops at the first NUL character: whatever
    follows it in memory changes nothing, in any state. *)
Theorem PrintString_stops_at_NUL (s1 s2 : string) (g : Globals) :
  LCD_PrintString (Some (s1 ++ String zero s2)%string) g = LCD_PrintString (Some s1) g.
Proof. apply PrintString_same_text. apply c_bytes_nul. Qed.

(** X14: printing a concatenation is printing the parts one after the
    other: if [s1] has no NUL character, the events of
    [LCD_PrintString] on [s1] then [s2] joined in the initialized state are those of
    [LCD_PrintString s1] followed by those of [LCD_PrintString s2]. *)
Theorem PrintString_append (s1 s2 : string) (g : Globals) :
  initialized g ->
  ~ In zero (list_ascii_of_string s1) ->
  events_of (LCD_PrintString (Some (s1 ++ s2)%string) g)
  = events_of (LCD_PrintString (Some s1) g) ++
    events_of (LCD_PrintString (Some s2) g).
Proof.
  intros Hg Hz. rewrite !(LCD_PrintString_run _ g Hg).
  unfold events_of. cbn [snd]. rewrite !app_nil_r.
  rewrite (c_bytes_app s1 s2 Hz), map_app, flat_map_app. reflexivity.
Qed.

Lemma PrintString_append_witness :
  let g := mkGlobals 0x20000400 0x4E in
  events_of (LCD_PrintString (Some ("Temp: " ++ "21 C")%string) g)
  = events_of (LCD_PrintString (Some "Temp: "%string) g) ++
    events_of (LCD_PrintString (Some "21 C"%string) g).
Proof.
  intros g. apply (PrintString_append "Temp: " "21 C" g).
  - unfold initialized, NULL. simpl. lia.
  - cbn. intros H. repeat (destruct H as [H|H]; [discriminate H|]). exact H.
Defined.

(* ------------------------------------------------------------------------- *)
(** ** Printing numbers *)

Lemma utoa_digits_are_digits (n : nat) (v : Z) (c : ascii) :
  0 <= v -> In c (utoa_digits n v) ->
  exists k, 0 <= k < 10 /\ c = digit_char k.
Proof.
  revert v. induction n as [|n IH]; intros v Hv Hc; [destruct Hc|].
  rewrite utoa_digits_step in Hc. destruct Hc as [<-|Hc].
  - exists (v mod 10). split; [apply Z.mod_pos_bound; lia|reflexivity].
  - destruct (v / 10 =? 0); [destruct Hc|].
    apply (IH (v / 10)); [apply Z.div_pos; lia|exact Hc].
Qed.

Lemma utoa_digits_length (n : nat) (v : Z) :
  (1 <= n -> 1 <= List.length (utoa_digits n v) <= n)%nat.
Proof.
  revert v. induction n as [|n IH]; intros v Hn; [lia|].
  rewrite utoa_digits_step. cbn [List.length].
  destruct (v / 10 =? 0); cbn [List.length]; [lia|].
  destruct n as [|n]; [cbn; lia|].
  specialize (IH (v / 10) ltac:(lia)). lia.
Qed.

Lemma c_bytes_no_nul (l : list ascii) :
  ~ In zero l ->
  c_bytes (string_of_list_ascii l) = map char_byte l.
Proof.
  induction l as [|c l IH]; intros Hz; [reflexivity|].
  cbn [string_of_list_ascii c_bytes map].
  destruct (Z.eqb_spec (Z.of_N (N_of_ascii c)) 0) as [Hc|Hc].
  - exfalso. apply Hz. left.
    rewrite <- (ascii_N_embedding c).
    replace (N_of_ascii c) with 0%N by lia. reflexivity.
  - unfold char_byte at 1. f_equal. apply IH.
    intros Hin. apply Hz. right. exact Hin.
Qed.

Lemma digit_char_not_nul (k : Z) : 0 <= k < 10 -> digit_char k <> zero.
Proof.
  intros Hk H. pose proof (digit_char_value k Hk) as Hv.
  rewrite H in Hv. change (Z.of_N (N_of_ascii zero)) with 0 in Hv. lia.
Qed.

Lemma utoa_text (v : Z) :
  0 <= v ->
  c_bytes (utoa v) = map char_byte (rev (utoa_digits 10 v)) /\
  (1 <= List.length (c_bytes (utoa v)) <= 10)%nat.
Proof.
  intros Hv. unfold utoa.
  rewrite c_bytes_no_nul.
  - split; [reflexivity|].
    rewrite length_map, length_rev. apply utoa_digits_length. lia.
  - intros Hin. apply in_rev in Hin.
    destruct (utoa_digits_are_digits 10 v zero Hv Hin) as (k & Hk & Hz).
    symmetry in Hz. exact (digit_char_not_nul k Hk Hz).
Qed.

Lemma itoa_text_length (num : Z) :
  is_i32 num -> (1 <= List.length (c_bytes (itoa num)) <= 11)%nat.
Proof.
  unfold is_i32, itoa. intros Hnum.
  destruct (Z.ltb_spec num 0) as [Hneg|Hpos].
  - change (c_bytes (String "-" (utoa (u32 (- num)))))
      with (0x2D :: c_bytes (utoa (u32 (- num)))).
    cbn [List.length].
    assert (0 <= u32 (- num)) by (apply Z.mod_pos_bound; lia).
    destruct (utoa_text (u32 (- num))) as [_ ?]; lia.
  - assert (0 <= u32 num) by (apply Z.mod_pos_bound; lia).
    destruct (utoa_text (u32 num)) as [_ ?]; lia.
Qed.

(** X15: in the initialized state, for every [int32_t] value,
    [LCD_PrintInt] returns [LCD_OK] and sends the characters of the decimal
    text as data bytes; the text has between 1 and 11 characters, so with
    its terminator it fits the 12-byte buffer, and the call makes at most
    44 bus writes. *)
Theorem PrintInt_text (num : Z) (g : Globals) :
  initialized g -> is_i32 num ->
  status_of (LCD_PrintInt num g) = LCD_OK /\
  received (events_of (LCD_PrintInt num g)) = map Data (c_bytes (itoa num)) /\
  text_value (itoa num) = num /\
  (1 <= List.length (c_bytes (itoa num)) <= 11)%nat /\
  (List.length (transactions (events_of (LCD_PrintInt num g))) <= 44)%nat.
Proof.
  intros Hg Hnum.
  assert (LCD_PrintInt num g
          = (LCD_OK, g, flat_map (write_events g) (map Data (c_bytes (itoa num)))
                          ++ [])) as ->.
  { unfold LCD_PrintInt. rewrite (guard_open g _ Hg).
    apply LCD_PrintString_run. exact Hg. }
  unfold status_of, events_of. cbn [fst snd]. rewrite app_nil_r.
  pose proof (itoa_text_length num Hnum) as Hlen.
  split; [reflexivity|]. split; [apply received_frames; apply c_bytes_u8|].
  split; [apply itoa_value; exact Hnum|]. split; [exact Hlen|].
  rewrite transactions_frames, length_map. lia.
Qed.

Lemma PrintInt_text_witness :
  let g := mkGlobals 0x20000400 0x4E in
  let num := -2147483648 in
  status_of (LCD_PrintInt num g) = LCD_OK /\
  received (events_of (LCD_PrintInt num g)) = map Data (c_bytes (itoa num)) /\
  text_value (itoa num) = num /\
  (1 <= List.length (c_bytes (itoa num)) <= 11)%nat /\
  (List.length (transactions (events_of (LCD_PrintInt num g))) <= 44)%nat.
Proof.
  intros g num. apply (PrintInt_text num g).
  - unfold initialized, NULL. simpl. lia.
  - unfold is_i32, num. lia.
Defined.


(* ------------------------------------------------------------------------- *)
(** ** Cursor positions *)

Lemma lor_set_ddram (a : Z) : 0 <= a < 128 -> Z.lor 0x80 a = 128 + a.
Proof.
  intros Ha.
  assert (below 256 (fun a => (128 <=? a) || (Z.lor 0x80 a =? 128 + a)) = true)
    as H by (vm_compute; reflexivity).
  assert (Hc := every_byte _ H a ltac:(unfold is_u8; lia)). cbv beta in Hc.
  apply orb_true_iff in Hc. destruct Hc as [Hc|Hc].
  - apply Z.leb_le in Hc. lia.
  - apply Z.eqb_eq in Hc. exact Hc.
Qed.

Lemma cursor_address (row col : Z) :
  exists a,
    cursor_command row col = 128 + a /\
    a = clamp 0 19 col + nth (Z.to_nat (clamp 0 3 row)) [0x00; 0x40; 0x14; 0x54] 0 /\
    (0 <= a <= 0x27 \/ 0x40 <= a <= 0x67).
Proof.
  assert (0 <= clamp 0 19 col <= 19) as Hc by (unfold clamp; lia).
  assert (clamp 0 3 row = 0 \/ clamp 0 3 row = 1 \/
          clamp 0 3 row = 2 \/ clamp 0 3 row = 3) as Hr
    by (unfold clamp; lia).
  unfold cursor_command.
  generalize dependent (clamp 0 19 col). generalize dependent (clamp 0 3 row).
  intros r Hr c Hc.
  exists (c + nth (Z.to_nat r) [0x00; 0x40; 0x14; 0x54] 0).
  assert (nth (Z.to_nat r) [0x00; 0x40; 0x14; 0x54] 0 = 0 \/
          nth (Z.to_nat r) [0x00; 0x40; 0x14; 0x54] 0 = 0x40 \/
          nth (Z.to_nat r) [0x00; 0x40; 0x14; 0x54] 0 = 0x14 \/
          nth (Z.to_nat r) [0x00; 0x40; 0x14; 0x54] 0 = 0x54) as Hoff.
  { destruct Hr as [-> | [-> | [-> | ->]]]; cbn; auto. }
  split; [apply lor_set_ddram; lia|]. split; [reflexivity|lia].
Qed.

Lemma LCD_SetCursor_run (row col : Z) (g : Globals) :
  initialized g -> is_u8 row -> is_u8 col ->
  LCD_SetCursor row col g
  = (LCD_OK, g, flat_map (write_events g) [Command (cursor_command row col)]).
Proof.
  intros Hg Hrow Hcol.
  assert (Hr : (if row >=? 4 then 3 else row) = clamp 0 3 row).
  { unfold clamp, is_u8 in *. destruct (Z.geb_spec row 4); lia. }
  assert (Hc : (if col >=? 20 then 19 else col) = clamp 0 19 col).
  { unfold clamp, is_u8 in *. destruct (Z.geb_spec col 20); lia. }
  unfold LCD_SetCursor. rewrite (guard_open g _ Hg), Hr, Hc.
  change (u8 _) with (u8 (cursor_command row col)).
  rewrite u8_byte.
  - apply command_then_ok.
  - destruct (cursor_address row col) as (a & -> & _ & Ha).
    unfold is_u8. lia.
Qed.

(** X17: [LCD_SetCursor] treats a row of 4 or more as row 3 and a column of
    20 or more as column 19, in any state: the call is the same call at the
    clamped position. *)
Theorem SetCursor_clamps (row col : Z) (g : Globals) :
  LCD_SetCursor row col g = LCD_SetCursor (Z.min row 3) (Z.min col 19) g.
Proof.
  unfold LCD_SetCursor.
  assert (Hr : (if row >=? 4 then 3 else row) = Z.min row 3)
    by (destruct (Z.geb_spec row 4); lia).
  assert (Hc : (if col >=? 20 then 19 else col) = Z.min col 19)
    by (destruct (Z.geb_spec col 20); lia).
  assert (Hr' : (if Z.min row 3 >=? 4 then 3 else Z.min row 3) = Z.min row 3)
    by (destruct (Z.geb_spec (Z.min row 3) 4); lia).
  assert (Hc' : (if Z.min col 19 >=? 20 then 19 else Z.min col 19) = Z.min col 19)
    by (destruct (Z.geb_spec (Z.min col 19) 20); lia).
  cbv zeta. rewrite Hr, Hc, Hr', Hc'. reflexivity.
Qed.

(** X18: in the initialized state the DDRAM address that [LCD_SetCursor]
    sends lies in 0x00..0x27 or 0x40..0x67 for every row and column, and two
    different positions of the 4 x 20 grid never get the same command. *)
Theorem SetCursor_addresses (row1 col1 row2 col2 : Z) (g : Globals) :
  initialized g ->
  is_u8 row1 -> is_u8 col1 -> is_u8 row2 -> is_u8 col2 ->
  (exists a,
     received (events_of (LCD_SetCursor row1 col1 g)) = [Command (128 + a)] /\
     (0 <= a <= 0x27 \/ 0x40 <= a <= 0x67)) /\
  (row1 < 4 -> col1 < 20 -> row2 < 4 -> col2 < 20 ->
   received (events_of (LCD_SetCursor row1 col1 g))
     = received (events_of (LCD_SetCursor row2 col2 g)) ->
   row1 = row2 /\ col1 = col2).
Proof.
  intros Hg Hr1 Hc1 Hr2 Hc2.
  assert (Hrec : forall row col, is_u8 row -> is_u8 col ->
            received (events_of (LCD_SetCursor row col g))
            = [Command (cursor_command row col)]).
  { intros row col Hr Hc.
    rewrite (LCD_SetCursor_run row col g Hg Hr Hc).
    unfold events_of. cbn [snd]. apply received_frames.
    constructor; [|constructor]. cbn [written_byte].
    destruct (cursor_address row col) as (a & -> & _ & Ha). unfold is_u8. lia. }
  rewrite (Hrec row1 col1 Hr1 Hc1), (Hrec row2 col2 Hr2 Hc2).
  destruct (cursor_address row1 col1) as (a1 & E1 & A1 & R1).
  destruct (cursor_address row2 col2) as (a2 & E2 & A2 & R2).
  rewrite E1, E2. split.
  - exists a1. split; [reflexivity|exact R1].
  - intros Lr1 Lc1 Lr2 Lc2 Heq. unfold is_u8 in *.
    assert (128 + a1 = 128 + a2) as Hsum by congruence.
    assert (a1 = a2) as Ha by lia. rewrite A1, A2 in Ha.
    clear -Ha Hr1 Hc1 Hr2 Hc2 Lr1 Lc1 Lr2 Lc2.
    unfold clamp in Ha.
    rewrite !Z.min_l, !Z.max_r in Ha by lia.
    assert (row1 = 0 \/ row1 = 1 \/ row1 = 2 \/ row1 = 3) as H1 by lia.
    assert (row2 = 0 \/ row2 = 1 \/ row2 = 2 \/ row2 = 3) as H2 by lia.
    destruct H1 as [-> | [-> | [-> | ->]]];
      destruct H2 as [-> | [-> | [-> | ->]]];
      repeat match type of Ha with
             | context [nth (Z.to_nat ?k) ?l 0] =>
                 let v := eval vm_compute in (nth (Z.to_nat k) l 0) in
                 change (nth (Z.to_nat k) l 0) with v in Ha
             end;
      lia.
Qed.

Lemma SetCursor_addresses_witness :
  let g := mkGlobals 0x20000400 0x4E in
  (exists a,
     received (events_of (LCD_SetCursor 2 7 g)) = [Command (128 + a)] /\
     (0 <= a <= 0x27 \/ 0x40 <= a <= 0x67)) /\
  (2 < 4 -> 7 < 20 -> 2 < 4 -> 7 < 20 ->
   received (events_of (LCD_SetCursor 2 7 g))
     = received (events_of (LCD_SetCursor 2 7 g)) ->
   2 = 2 /\ 7 = 7).
Proof.
  intros g. apply (SetCursor_addresses 2 7 2 7 g); unfold is_u8; try lia.
  unfold initialized, NULL. simpl. lia.
Defined.

(* ------------------------------------------------------------------------- *)
(** ** Custom characters *)

Lemma LCD_CreateChar_run (location : Z) (charmap : list Z) (g : Globals) :
  initialized g -> (location >? 7) = false ->
  LCD_CreateChar location charmap g
  = (LCD_OK, g,
     flat_map (write_events g)
       (Command (u8 (Z.lor LCD_SET_CGRAM_ADDR (Z.shiftl location 3)))
          :: map (fun i => Data (nth i charmap 0)) (seq 0 8))).
Proof.
  intros Hg Hloc. unfold LCD_CreateChar. rewrite (guard_open g _ Hg), Hloc.
  change (flat_map (write_events g) (?c :: ?l))
    with (write_events g c ++ flat_map (write_events g) l).
  rewrite <- (app_nil_r (flat_map _ (map _ (seq 0 8)))).
  eapply bind_run; [apply LCD_WriteCommand_run|].
  eapply bind_run; [apply for_each_run | reflexivity].
Qed.

Lemma cgram_command (location : Z) :
  0 <= location <= 7 ->
  u8 (Z.lor LCD_SET_CGRAM_ADDR (Z.shiftl location 3)) = 0x40 + 8 * location.
Proof.
  intros H.
  assert (location = 0 \/ location = 1 \/ location = 2 \/ location = 3 \/
          location = 4 \/ location = 5 \/ location = 6 \/ location = 7)
    as Hcases by lia.
  repeat (destruct Hcases as [->|Hcases]; [reflexivity|]).
  subst location. reflexivity.
Qed.

(** X19: in the initialized state [LCD_CreateChar] refuses a slot above 7
    with [LCD_ERROR] and no HAL call; for a slot 0..7 and a glyph of eight
    bytes it returns [LCD_OK] after the command 0x40 + 8 * slot and the
    eight glyph bytes as data, in order, in 36 bus writes. *)
Theorem CreateChar_any_slot (location : Z) (glyph : list Z) (g : Globals) :
  initialized g -> is_u8 location ->
  (7 < location -> LCD_CreateChar location glyph g = (LCD_ERROR, g, [])) /\
  (location <= 7 -> List.length glyph = 8%nat -> Forall is_u8 glyph ->
   status_of (LCD_CreateChar location glyph g) = LCD_OK /\
   received (events_of (LCD_CreateChar location glyph g))
     = Command (0x40 + 8 * location) :: map Data glyph /\
   List.length (transactions (events_of (LCD_CreateChar location glyph g)))
     = 36%nat).
Proof.
  intros Hg Hloc. unfold is_u8 in Hloc. split.
  - intros H. unfold LCD_CreateChar. rewrite (guard_open g _ Hg).
    assert ((location >? 7) = true) as -> by (apply Z.gtb_lt; lia).
    reflexivity.
  - intros H Hlen Hbytes.
    assert ((location >? 7) = false) as Hgt.
    { destruct (Z.gtb_spec location 7); [lia|reflexivity]. }
    rewrite (LCD_CreateChar_run location glyph g Hg Hgt).
    rewrite cgram_command by lia. rewrite (first_eight glyph Hlen).
    unfold status_of, events_of. cbn [fst snd].
    split; [reflexivity|]. split.
    + apply received_frames. constructor.
      * cbn [written_byte]. unfold is_u8. lia.
      * clear -Hbytes. induction Hbytes; constructor; assumption.
    + rewrite transactions_frames. cbn [List.length].
      rewrite length_map, Hlen. reflexivity.
Qed.

Lemma CreateChar_any_slot_witness :
  let glyph := [0x04; 0x0E; 0x0E; 0x0E; 0x1F; 0x00; 0x04; 0x00] in
  let g := mkGlobals 0x20000400 0x4E in
  (7 < 7 -> LCD_CreateChar 7 glyph g = (LCD_ERROR, g, [])) /\
  (7 <= 7 -> List.length glyph = 8%nat -> Forall is_u8 glyph ->
   status_of (LCD_CreateChar 7 glyph g) = LCD_OK /\
   received (events_of (LCD_CreateChar 7 glyph g))
     = Command (0x40 + 8 * 7) :: map Data glyph /\
   List.length (transactions (events_of (LCD_CreateChar 7 glyph g))) = 36%nat).
Proof.
  intros glyph g. apply (CreateChar_any_slot 7 glyph g).
  - unfold initialized, NULL. simpl. lia.
  - unfold is_u8. lia.
Defined.

Lemma nth_first_eight (glyph extra : list Z) :
  List.length glyph = 8%nat ->
  map (fun i => Data (nth i (glyph ++ extra) 0)) (seq 0 8)
  = map (fun i => Data (nth i glyph 0)) (seq 0 8).
Proof.
  intros H. apply map_ext_in. intros i Hi. apply in_seq in Hi.
  rewrite app_nth1 by lia. reflexivity.
Qed.

(** X20: [LCD_CreateChar] reads the first eight cells of the array and no
    more: whatever follows them changes nothing, for any slot and in any
    state. *)
Theorem CreateChar_reads_eight_cells
    (location : Z) (glyph extra : list Z) (g : Globals) :
  List.length glyph = 8%nat ->
  LCD_CreateChar location (glyph ++ extra) g = LCD_CreateChar location glyph g.
Proof.
  intros Hlen.
  destruct (Z.eq_dec (hi2c_lcd g) NULL) as [Hnull|Hne].
  { unfold LCD_CreateChar. rewrite !(guard_closed g _ Hnull). reflexivity. }
  destruct (location >? 7) eqn:Hgt.
  { unfold LCD_CreateChar. rewrite !(guard_open g _ Hne), Hgt. reflexivity. }
  rewrite !(LCD_CreateChar_run location _ g Hne Hgt).
  rewrite (nth_first_eight glyph extra Hlen). reflexivity.
Qed.

Lemma CreateChar_reads_eight_cells_witness :
  LCD_CreateChar 2 ([1; 2; 3; 4; 5; 6; 7; 8] ++ [0xFF; 0xFF]) (mkGlobals 0x20000400 0x4E)
  = LCD_CreateChar 2 [1; 2; 3; 4; 5; 6; 7; 8] (mkGlobals 0x20000400 0x4E).
Proof. apply (CreateChar_reads_eight_cells 2 [1; 2; 3; 4; 5; 6; 7; 8]). reflexivity. Defined.

(* ------------------------------------------------------------------------- *)
(** ** The print-at macros *)

Lemma macro_run {A} (m1 m2 : M A) (g : Globals) (a1 a2 : A) (t1 t2 : list Event) :
  m1 g = (a1, g, t1) -> m2 g = (a2, g, t2) ->
  (m1 ;; m2 ;; ret tt) g = (tt, g, t1 ++ t2).
Proof.
  intros H1 H2. eapply bind_run; [exact H1|].
  rewrite <- (app_nil_r t2). eapply bind_run; [exact H2|reflexivity].
Qed.

(** X21: in the initialized state [LCD_PRINT_AT] sends the cursor command
    for the clamped position and then the characters of the text as data
    bytes.  With a null text the cursor command is still sent, and the
    [LCD_ERROR] of [LCD_PrintString] is lost, the macro being a statement.
    With no handle bound the macro does nothing. *)
Theorem PRINT_AT_sends (row col : Z) (str : string) (g : Globals) :
  is_u8 row -> is_u8 col ->
  (initialized g ->
   received (events_of (LCD_PRINT_AT row col (Some str) g))
     = Command (cursor_command row col) :: map Data (c_bytes str) /\
   received (events_of (LCD_PRINT_AT row col None g))
     = [Command (cursor_command row col)]) /\
  (hi2c_lcd g = NULL ->
   LCD_PRINT_AT row col (Some str) g = (tt, g, [])).
Proof.
  intros Hrow Hcol.
  assert (Hcmd : is_u8 (cursor_command row col)).
  { destruct (cursor_address row col) as (a & -> & _ & Ha). unfold is_u8. lia. }
  split.
  - intros Hg. split.
    + unfold LCD_PRINT_AT.
      rewrite (macro_run _ _ g _ _ _ _ (LCD_SetCursor_run row col g Hg Hrow Hcol)
                 (LCD_PrintString_run str g Hg)).
      unfold events_of. cbn [snd]. rewrite app_nil_r, <- flat_map_app.
      apply received_frames. constructor; [exact Hcmd|apply c_bytes_u8].
    + unfold LCD_PRINT_AT.
      assert (LCD_PrintString None g = (LCD_ERROR, g, [])) as Hnone.
      { unfold LCD_PrintString. rewrite (guard_open g _ Hg). reflexivity. }
      rewrite (macro_run _ _ g _ _ _ _ (LCD_SetCursor_run row col g Hg Hrow Hcol)
                 Hnone).
      unfold events_of. cbn [snd]. rewrite app_nil_r.
      apply received_frames. constructor; [exact Hcmd|constructor].
  - intros Hnull. unfold LCD_PRINT_AT.
    assert (LCD_SetCursor row col g = (LCD_NOT_INITIALIZED, g, [])) as H1
      by (unfold LCD_SetCursor; apply guard_closed; exact Hnull).
    assert (LCD_PrintString (Some str) g = (LCD_NOT_INITIALIZED, g, [])) as H2
      by (unfold LCD_PrintString; apply guard_closed; exact Hnull).
    apply (macro_run _ _ g _ _ _ _ H1 H2).
Qed.

Lemma PRINT_AT_sends_witness :
  let g := mkGlobals 0x20000400 0x4E in
  (initialized g ->
   received (events_of (LCD_PRINT_AT 1 4 (Some "ok"%string) g))
     = Command (cursor_command 1 4) :: map Data (c_bytes "ok") /\
   received (events_of (LCD_PRINT_AT 1 4 None g))
     = [Command (cursor_command 1 4)]) /\
  (hi2c_lcd g = NULL ->
   LCD_PRINT_AT 1 4 (Some "ok"%string) g = (tt, g, [])).
Proof.
  intros g. apply (PRINT_AT_sends 1 4 "ok" g); unfold is_u8; lia.
Defined.



(* ------------------------------------------------------------------------- *)
(** ** Before the first successful initialization *)

(** X23: as long as no [LCD_Init] with a non-null handle is among them, a
    series of public calls from a state with no handle bound makes no HAL
    call at all and leaves the handle unbound. *)
Theorem silent_until_initialized
    (float : Type) (sprintf_fixed : Z -> float -> string)
    (cs : list (Call float)) (g : Globals) :
  hi2c_lcd g = NULL ->
  (forall hi2c, In (Init hi2c) cs -> hi2c = NULL) ->
  events_of_calls sprintf_fixed cs g = [] /\
  hi2c_lcd (after_calls sprintf_fixed cs g) = NULL.
Proof.
  revert g. induction cs as [|c cs IH]; intros g Hg Hcs; [split; [reflexivity|exact Hg]|].
  cbn [events_of_calls after_calls fold_left].
  assert (events_of (run sprintf_fixed c g) = [] /\
          hi2c_lcd (globals_of (run sprintf_fixed c g)) = NULL) as [He Hg'].
  { destruct c as [hi2c|address|o]; cbn [run].
    - rewrite (Hcs hi2c (or_introl eq_refl)), LCD_Init_null. split; [reflexivity|exact Hg].
    - split; [reflexivity|exact Hg].
    - rewrite (run_operation_unbound float sprintf_fixed o g Hg).
      split; [reflexivity|exact Hg]. }
  rewrite He. cbn [app].
  apply IH; [exact Hg'|].
  intros hi2c Hin. apply Hcs. right. exact Hin.
Qed.

Lemma silent_until_initialized_witness :
  let cs := [Op Clear; SetAddress 0x7E; Init NULL; Op (PrintString (Some "x"%string));
             Op (CreateChar 1 [1; 2; 3; 4; 5; 6; 7; 8])] in
  events_of_calls (fun _ (_ : unit) => EmptyString) cs power_on = [] /\
  hi2c_lcd (after_calls (fun _ (_ : unit) => EmptyString) cs power_on) = NULL.
Proof.
  intros cs. apply (silent_until_initialized unit).
  - reflexivity.
  - intros hi2c Hin. cbn in Hin.
    repeat (destruct Hin as [Hin|Hin]; [try discriminate Hin|]).
    + injection Hin as <-. reflexivity.
    + destruct Hin.
Defined.

Lemma events_of_calls_all {float : Type} (sprintf_fixed : Z -> float -> string)
    (P : list Event -> Prop) :
  P [] -> (forall t1 t2, P t1 -> P t2 -> P (t1 ++ t2)) ->
  (forall c g, P (events_of (run sprintf_fixed c g))) ->
  forall cs g, P (events_of_calls sprintf_fixed cs g).
Proof.
  intros Hnil Happ Hrun cs. induction cs as [|c cs IH]; intros g; [exact Hnil|].
  cbn [events_of_calls]. apply Happ; [apply Hrun|apply IH].
Qed.

(** X24: over any series of public calls from any state, every byte on the
    bus has the backlight bit set and the R/W bit clear, and every bus write
    is directly followed by a delay of at least 1 ms, also across the
    boundary between two calls. *)
Theorem series_of_calls_keeps_wire_discipline
    (float : Type) (sprintf_fixed : Z -> float -> string)
    (cs : list (Call float)) (g : Globals) :
  Forall (fun p => Z.land p LCD_BACKLIGHT = LCD_BACKLIGHT /\
                   Z.land p LCD_RW <> LCD_RW /\ 0 <= p < 256)
         (packets (events_of_calls sprintf_fixed cs g)) /\
  paced (events_of_calls sprintf_fixed cs g).
Proof.
  split.
  - apply (events_of_calls_all sprintf_fixed
             (fun t => Forall (fun p => Z.land p LCD_BACKLIGHT = LCD_BACKLIGHT /\
                                        Z.land p LCD_RW <> LCD_RW /\ 0 <= p < 256)
                              (packets t))).
    + constructor.
    + intros t1 t2 H1 H2. rewrite packets_app. apply Forall_app. split; assumption.
    + intros c g0.
      destruct (sat_run float sprintf_fixed c g0) as [_ Hb].
      apply packets_backlit in Hb.
      pose proof (run_write_only float sprintf_fixed c g0) as Hw.
      unfold write_only in Hw. rewrite Forall_forall in *.
      intros p Hp. destruct (Hw p Hp) as [Hrange Hrw].
      split; [apply Z.eqb_eq; apply (Hb p Hp)|].
      split; [apply Z.eqb_neq; exact Hrw|exact Hrange].
  - apply (events_of_calls_all sprintf_fixed paced).
    + exact I.
    + apply paced_app.
    + apply run_paced.
Qed.

(* ------------------------------------------------------------------------- *)
(** ** The unused enable-pulse helper *)

(** X25: [LCD_PulseEnable], for a byte, makes three bus writes: the byte as
    it is, the byte with EN set, the byte with EN cleared; the controller
    sees one falling edge of EN, hence one nibble-transfer.  Unlike
    [LCD_WriteNibble] it adds no backlight bit: a byte without it goes out
    without it. *)
Theorem PulseEnable_pulse (data : Z) (g : Globals) :
  is_u8 data ->
  globals_of (LCD_PulseEnable data g) = g /\
  packets (events_of (LCD_PulseEnable data g))
    = [data; Z.lor data LCD_EN; Z.land data (Z.lnot LCD_EN)] /\
  nibble_transfers (packets (events_of (LCD_PulseEnable data g)))
    = [Z.lor data LCD_EN] /\
  (bits_set LCD_BACKLIGHT data = false ->
   Forall (fun p => bits_set LCD_BACKLIGHT p = false)
          (packets (events_of (LCD_PulseEnable data g)))).
Proof.
  intros Hd.
  assert (below 256 (fun b =>
            (u8 (Z.lor b LCD_EN) =? Z.lor b LCD_EN) &&
            (u8 (Z.land (u8 (Z.lor b LCD_EN)) (Z.lnot LCD_EN))
               =? Z.land b (Z.lnot LCD_EN)) &&
            bits_set LCD_EN (Z.lor b LCD_EN) &&
            negb (bits_set LCD_EN (Z.land b (Z.lnot LCD_EN))) &&
            Bool.eqb (bits_set LCD_BACKLIGHT (Z.lor b LCD_EN))
                     (bits_set LCD_BACKLIGHT b) &&
            Bool.eqb (bits_set LCD_BACKLIGHT (Z.land b (Z.lnot LCD_EN)))
                     (bits_set LCD_BACKLIGHT b)) = true) as Hall
    by (vm_compute; reflexivity).
  pose proof (every_byte _ Hall data Hd) as H. cbv beta in H.
  repeat (apply andb_true_iff in H; destruct H as [H ?]).
  repeat match goal with
         | X : negb _ = true |- _ => apply negb_true_iff in X
         | X : (_ =? _) = true |- _ => apply Z.eqb_eq in X
         | X : Bool.eqb _ _ = true |- _ => apply Bool.eqb_prop in X
         end.
  assert (Hp : packets (events_of (LCD_PulseEnable data g))
               = [data; Z.lor data LCD_EN; Z.land data (Z.lnot LCD_EN)]).
  { change (packets (events_of (LCD_PulseEnable data g)))
      with [data; u8 (Z.lor data LCD_EN);
            u8 (Z.land (u8 (Z.lor data LCD_EN)) (Z.lnot LCD_EN))].
    congruence. }
  split; [reflexivity|]. split; [exact Hp|]. rewrite Hp. split.
  - unfold nibble_transfers. cbn [latched].
    change (bits_set LCD_EN 0) with false. cbn [andb].
    match goal with
    | E1 : bits_set LCD_EN (Z.lor data LCD_EN) = true,
      E2 : bits_set LCD_EN (Z.land data (Z.lnot LCD_EN)) = false |- _ =>
        rewrite E1, E2
    end.
    rewrite andb_false_r. reflexivity.
  - intros Hb. repeat constructor; congruence.
Qed.

Lemma PulseEnable_pulse_witness :
  let g := mkGlobals 0x20000400 0x4E in
  globals_of (LCD_PulseEnable 0x31 g) = g /\
  packets (events_of (LCD_PulseEnable 0x31 g))
    = [0x31; Z.lor 0x31 LCD_EN; Z.land 0x31 (Z.lnot LCD_EN)] /\
  nibble_transfers (packets (events_of (LCD_PulseEnable 0x31 g)))
    = [Z.lor 0x31 LCD_EN] /\
  (bits_set LCD_BACKLIGHT 0x31 = false ->
   Forall (fun p => bits_set LCD_BACKLIGHT p = false)
          (packets (events_of (LCD_PulseEnable 0x31 g)))).
Proof.
  intros g. apply (PulseEnable_pulse 0x31 g). unfold is_u8. lia.
Defined.
